(** * metricsService: the persistent store, its resilience layer and the agent

    A shallow embedding of [internal/storage/database_storage.go] and
    [internal/agent/agent.go].  Go values are modelled as follows:
    - [int], [int64]: [Z], with the two's-complement wrap-around written
      out ([wrap64]);
    - [float64]: Rocq's binary64 [float] (gauge values are only stored and
      passed on, never computed with);
    - [error]: an inductive with the [%w] wrapping chain, [nil] is [None];
    - the PostgreSQL session behind [PgxIface] and the agent's transport:
      explicit state, threaded through every call. *)

From Stdlib Require Import ZArith Lia Floats.PrimFloat.
From stdpp Require Import gmap strings list.

(* Decimal literals such as 9.1 denote the nearest binary64 value, as they
   do in Go. *)
#[local] Set Warnings "-inexact-float".

Open Scope Z_scope.

(** ** Go errors *)

(** An [error] value that is not [nil].  [PgError] is [*pgconn.PgError]
    with its SQLSTATE [Code]; [Wrapped] is the result of
    [fmt.Errorf("msg: %w", err)]. *)
Inductive error : Type :=
| PgError (code : string)
| ErrText (msg : string)
| Wrapped (msg : string) (inner : error).

(** [errors.As(err, &tError)] for [tError : *pgconn.PgError]: the first
    [PgError] on the unwrap chain; [nil] matches nothing. *)
Fixpoint errors_As_PgError (e : error) : option string :=
  match e with
  | PgError code => Some code
  | ErrText _ => None
  | Wrapped _ inner => errors_As_PgError inner
  end.

(** [pgerrcode.IsConnectionException]: the SQLSTATE codes of class 08. *)
Definition IsConnectionException (code : string) : bool :=
  bool_decide (code ∈ ["08000"; "08003"; "08006"; "08001"; "08004";
                       "08007"; "08P01"]%string).

(** The condition
    [errors.As(err, &tError) && pgerrcode.IsConnectionException(tError.Code)]
    of [errorHanlder]. *)
Definition transient (err : option error) : bool :=
  match err with
  | None => false
  | Some e =>
      match errors_As_PgError e with
      | Some code => IsConnectionException code
      | None => false
      end
  end.

(** ** Machine integers and time *)

(** The value of a 64-bit signed integer after an operation whose exact
    result is [z]. *)
Definition wrap64 (z : Z) : Z := (z + 2 ^ 63) mod 2 ^ 64 - 2 ^ 63.

(** [time.Second], in nanoseconds. *)
Definition time_Second : Z := 1000000000.

(** [time.Duration(duration) * time.Second]. *)
Definition seconds (duration : Z) : Z := wrap64 (duration * time_Second).

(** ** The store and its resilience layer *)

(** [DBStorage] without its [conn] field: the session the field points to
    is the state the operations below are threaded through. *)
Record DBStorage : Type := mkDBStorage {
  retryCount : Z;
  duration : Z;
  durationPolicy : Z
}.

(** What the process has done to a backend of type [B]: its state, and the
    arguments of the calls to [time.Sleep], oldest first. *)
Record World (B : Type) : Type := mkWorld {
  backend : B;
  slept : list Z
}.
Arguments mkWorld {B} _ _.
Arguments backend {B} _.
Arguments slept {B} _.

(** A [func() error] closure over a backend. *)
Definition handler (B : Type) : Type := B -> option error * B.

Definition time_Sleep {B} (d : Z) (w : World B) : World B :=
  mkWorld (backend w) (slept w ++ [d]).

(** A call that only touches the backend. *)
Definition call {B A} (f : B -> A * B) (w : World B) : A * World B :=
  let '(a, b) := f (backend w) in (a, mkWorld b (slept w)).

(** The loop [for i := 0; i < dbs.retryCount; i++] of [errorHanlder], with
    [n] iterations left, the local [duration] and the current [err]. *)
Fixpoint retryLoop {B} (policy : Z) (handelFunc : handler B) (n : nat)
    (dur : Z) (err : option error) (w : World B) : option error * World B :=
  match n with
  | O => (err, w)
  | S n' =>
      let w1 := time_Sleep (seconds dur) w in
      let '(err', w2) := call handelFunc w1 in
      if transient err'
      then retryLoop policy handelFunc n' (wrap64 (dur + policy)) err' w2
      else (err', w2)
  end.

(** [err == nil]. *)
Definition isNil (err : option error) : bool :=
  match err with None => true | Some _ => false end.

Definition errorHanlder {B} (dbs : DBStorage) (handelFunc : handler B)
    (w : World B) : option error * World B :=
  let '(err, w1) := call handelFunc w in
  if isNil err || (retryCount dbs <=? 0) then (err, w1)
  else if transient err
       then retryLoop (durationPolicy dbs) handelFunc
              (Z.to_nat (retryCount dbs)) (duration dbs) err w1
       else (err, w1).

(** *** Observing the wrapped operation *)

(** The backend after [n] invocations of [op], and what invocation number
    [k] (from 0) returns. *)
Fixpoint state_after {B} (op : handler B) (n : nat) (b : B) : B :=
  match n with
  | O => b
  | S n' => state_after op n' (snd (op b))
  end.

Definition outcome_at {B} (op : handler B) (k : nat) (b : B) : option error :=
  fst (op (state_after op k b)).

(** The arguments of [time.Sleep] in a run with [r] retries that starts
    from the delay [dur]: [dur], [dur + policy], ... seconds. *)
Definition delays (dur policy : Z) (r : nat) : list Z :=
  (fun k => seconds (dur + Z.of_nat k * policy)) <$> seq 0 r.

(** An operation that only counts its invocations and returns what the
    script says for each of them, [nil] once the script is used up. *)
Definition scripted (script : list (option error)) : handler nat :=
  fun k => (mjoin (script !! k), S k).

(** ** The metric model *)

(** [models.Metrics], as the store uses it: [Delta] is a [*int64] and
    [Value] a [*float64], [None] is the nil pointer. *)
Record Metrics : Type := mkMetrics {
  ID : string;
  MType : string;
  Delta : option Z;
  Value : option float
}.

(** Modelled from the spec: [models.NewMetricsForCounter] is not among the
    sources; it builds the Counter metric that carries the returned
    stored value. *)
Definition NewMetricsForCounter (id : string) (delta : Z) : Metrics :=
  mkMetrics id "counter" (Some delta) None.

(** Modelled from the spec: [models.NewMetricsForGauge] is not among the
    sources; it builds the Gauge metric that carries the returned stored
    value. *)
Definition NewMetricsForGauge (id : string) (value : float) : Metrics :=
  mkMetrics id "gauge" None (Some value).

(** What a Go function of type [(T, error)] returns. *)
Inductive result (A : Type) : Type :=
| Ok (a : A)
| Err (e : error).
Arguments Ok {A} _.
Arguments Err {A} _.

(** What a call does: it returns, or it panics on a nil pointer
    dereference. *)
Inductive outcome (A : Type) : Type :=
| Returns (a : A)
| Panics.
Arguments Returns {A} _.
Arguments Panics {A}.

(** ** The PostgreSQL session behind [PgxIface] *)

(** The two relations.  [None]: the relation does not exist.  A relation
    is keyed by its [UNIQUE] column [Name]. *)
Record Tables : Type := mkTables {
  gauges : option (gmap string float);
  counters : option (gmap string Z)
}.

(** The statements the store sends, with their arguments. *)
Inductive Stmt : Type :=
| TableExists (table_name : string)   (* selectQuery *)
| CreateGauges                        (* createGaugesQuery *)
| CreateCounters                      (* createCountersQuery *)
| UpsertGauge (name : string) (value : float)
| UpsertCounter (name : string) (delta : Z)
| SelectGauge (name : string)
| SelectCounter (name : string).

Inductive Request : Type :=
| ReqBegin
| ReqCommit
| ReqRollback
| ReqStmt (s : Stmt)
| ReqBatch (b : list Stmt).

(** The value behind [PgxIface]: one connection, or a pool when [pooled]
    is set.  [tables] is what it sees; [saved] is the state at [BEGIN]
    while its statements run inside an open transaction; [faults] are
    the failures the environment injects (connection loss, a rejected
    statement), one entry per round trip, none once the list is used up,
    and a round trip that fails has run nothing; [issued] logs the round
    trips, oldest first. *)
Record Conn : Type := mkConn {
  pooled : bool;
  tables : Tables;
  saved : option Tables;
  faults : list (option error);
  issued : list Request
}.

Definition set_tables (t : Tables) (c : Conn) : Conn :=
  mkConn (pooled c) t (saved c) (faults c) (issued c).

Definition set_saved (s : option Tables) (c : Conn) : Conn :=
  mkConn (pooled c) (tables c) s (faults c) (issued c).

(** A round trip: it is logged and takes the next injected fault. *)
Definition round_trip (r : Request) (c : Conn) : option error * Conn :=
  (mjoin (head (faults c)),
   mkConn (pooled c) (tables c) (saved c) (tail (faults c)) (issued c ++ [r])).

(** SQLSTATE codes the statements can raise by themselves. *)
Definition undefined_table : error := PgError "42P01".
Definition duplicate_table : error := PgError "42P07".
Definition numeric_value_out_of_range : error := PgError "22003".
(** [pgx.ErrNoRows]. *)
Definition ErrNoRows : error := ErrText "no rows in result set".

(** The range of the column type [INTEGER] of [counters.Delta]. *)
Definition in_int4 (z : Z) : bool := (- 2 ^ 31 <=? z) && (z <=? 2 ^ 31 - 1).

(** [SELECT COUNT(table_name) > 0 FROM information_schema.tables
     WHERE table_name = $1]. *)
Definition sql_table_exists (table_name : string) (t : Tables) : bool :=
  if String.eqb table_name "gauges"
  then match gauges t with Some _ => true | None => false end
  else if String.eqb table_name "counters"
       then match counters t with Some _ => true | None => false end
       else false.

Definition sql_create_gauges (t : Tables) : result Tables :=
  match gauges t with
  | Some _ => Err duplicate_table
  | None => Ok (mkTables (Some ∅) (counters t))
  end.

Definition sql_create_counters (t : Tables) : result Tables :=
  match counters t with
  | Some _ => Err duplicate_table
  | None => Ok (mkTables (gauges t) (Some ∅))
  end.

(** [INSERT INTO gauges (Name, Value) VALUES ($1, $2) ON CONFLICT (Name)
     DO UPDATE SET Value = EXCLUDED.Value RETURNING *], then
    [SELECT Value FROM t WHERE Name = $1]. *)
Definition sql_upsert_gauge (name : string) (value : float) (t : Tables)
  : result (float * Tables) :=
  match gauges t with
  | None => Err undefined_table
  | Some g => Ok (value, mkTables (Some (<[name := value]> g)) (counters t))
  end.

(** [INSERT INTO counters (Name, Delta) VALUES ($1, $2) ON CONFLICT (Name)
     DO UPDATE SET Delta = counters.Delta + EXCLUDED.Delta RETURNING *],
    then [SELECT Delta FROM t WHERE Name = $1].  Both the inserted and
    the accumulated value have to fit the [INTEGER] column. *)
Definition sql_upsert_counter (name : string) (delta : Z) (t : Tables)
  : result (Z * Tables) :=
  match counters t with
  | None => Err undefined_table
  | Some c =>
      let new := match c !! name with
                 | Some old => old + delta
                 | None => delta
                 end in
      if in_int4 delta && in_int4 new
      then Ok (new, mkTables (gauges t) (Some (<[name := new]> c)))
      else Err numeric_value_out_of_range
  end.

(** [SELECT Value FROM gauges WHERE Name = $1]. *)
Definition sql_select_gauge (name : string) (t : Tables) : result float :=
  match gauges t with
  | None => Err undefined_table
  | Some g => match g !! name with
              | Some v => Ok v
              | None => Err ErrNoRows
              end
  end.

(** [SELECT Delta FROM counters WHERE Name = $1]. *)
Definition sql_select_counter (name : string) (t : Tables) : result Z :=
  match counters t with
  | None => Err undefined_table
  | Some c => match c !! name with
              | Some v => Ok v
              | None => Err ErrNoRows
              end
  end.

(** The effect of a statement on the relations, its result row dropped. *)
Definition sql_exec (s : Stmt) (t : Tables) : result Tables :=
  match s with
  | TableExists _ => Ok t
  | CreateGauges => sql_create_gauges t
  | CreateCounters => sql_create_counters t
  | UpsertGauge name value =>
      match sql_upsert_gauge name value t with
      | Ok (_, t') => Ok t'
      | Err e => Err e
      end
  | UpsertCounter name delta =>
      match sql_upsert_counter name delta t with
      | Ok (_, t') => Ok t'
      | Err e => Err e
      end
  | SelectGauge name =>
      match sql_select_gauge name t with Ok _ => Ok t | Err e => Err e end
  | SelectCounter name =>
      match sql_select_counter name t with Ok _ => Ok t | Err e => Err e end
  end.

(** The statements of a batch, in order, up to the first one that fails:
    the relations reached, and the error if there is one. *)
Fixpoint sql_exec_all (b : list Stmt) (t : Tables) : option error * Tables :=
  match b with
  | [] => (None, t)
  | s :: b' =>
      match sql_exec s t with
      | Ok t' => sql_exec_all b' t'
      | Err e => (Some e, t)
      end
  end.

(** *** The methods of [PgxIface] and of [pgx.Tx] *)

(** [conn.QueryRow(ctx, query, args...).Scan(&dst)] for the statement [s]
    whose meaning is [sem]: the scanned value, or the error. *)
Definition QueryRow_Scan {A} (s : Stmt) (sem : Tables -> result (A * Tables))
    (c : Conn) : result A * Conn :=
  let '(fault, c1) := round_trip (ReqStmt s) c in
  match fault with
  | Some e => (Err e, c1)
  | None =>
      match sem (tables c1) with
      | Ok (a, t') => (Ok a, set_tables t' c1)
      | Err e => (Err e, c1)
      end
  end.

Definition query_table_exists (table_name : string) : Conn -> result bool * Conn :=
  QueryRow_Scan (TableExists table_name)
    (fun t => Ok (sql_table_exists table_name t, t)).

Definition query_upsert_gauge (id : string) (value : float) : Conn -> result float * Conn :=
  QueryRow_Scan (UpsertGauge id value) (sql_upsert_gauge id value).

Definition query_upsert_counter (id : string) (delta : Z) : Conn -> result Z * Conn :=
  QueryRow_Scan (UpsertCounter id delta) (sql_upsert_counter id delta).

Definition query_select_gauge (id : string) : Conn -> result float * Conn :=
  QueryRow_Scan (SelectGauge id)
    (fun t => match sql_select_gauge id t with
              | Ok v => Ok (v, t)
              | Err e => Err e
              end).

Definition query_select_counter (id : string) : Conn -> result Z * Conn :=
  QueryRow_Scan (SelectCounter id)
    (fun t => match sql_select_counter id t with
              | Ok v => Ok (v, t)
              | Err e => Err e
              end).

(** [conn.Exec(ctx, query)], the command tag dropped. *)
Definition conn_Exec (s : Stmt) : handler Conn := fun c =>
  let '(fault, c1) := round_trip (ReqStmt s) c in
  match fault with
  | Some e => (Some e, c1)
  | None =>
      match sql_exec s (tables c1) with
      | Ok t' => (None, set_tables t' c1)
      | Err e => (Some e, c1)
      end
  end.

(** [conn.SendBatch(ctx, batch).Close()]: the queued statements go out in
    one round trip and run in order; the first failure ends the batch.
    Outside a transaction the batch is its own transaction and a failure
    undoes it; inside one, the statements before the failing one stay
    until the transaction is rolled back. *)
Definition SendBatch_Close (batch : list Stmt) : handler Conn := fun c =>
  let '(fault, c1) := round_trip (ReqBatch batch) c in
  match fault with
  | Some e => (Some e, c1)
  | None =>
      let '(err, t') := sql_exec_all batch (tables c1) in
      match err, saved c1 with
      | Some e, None => (Some e, c1)
      | _, _ => (err, set_tables t' c1)
      end
  end.

(** [conn.Begin(ctx)].  The transaction of a pool runs on a connection
    of its own: what the store then sends through [dbs.conn] and not
    through the [pgx.Tx] is not part of it. *)
Definition conn_Begin : handler Conn := fun c =>
  let '(fault, c1) := round_trip ReqBegin c in
  match fault with
  | Some e => (Some e, c1)
  | None =>
      if pooled c1 then (None, c1)
      else (None, set_saved (Some (default (tables c1) (saved c1))) c1)
  end.

(** Leaving the open transaction without its effects. *)
Definition undo (c : Conn) : Conn :=
  mkConn (pooled c) (default (tables c) (saved c)) None (faults c) (issued c).

(** [tx.Rollback(ctx)]: also when the round trip fails, the session ends
    up without the transaction's effects. *)
Definition tx_Rollback : handler Conn := fun c =>
  let '(fault, c1) := round_trip ReqRollback c in (fault, undo c1).

(** [tx.Commit(ctx)]: a commit that fails commits nothing. *)
Definition tx_Commit : handler Conn := fun c =>
  let '(fault, c1) := round_trip ReqCommit c in
  match fault with
  | Some e => (Some e, undo c1)
  | None => (None, set_saved None c1)
  end.

(** [pgx.BeginFunc(ctx, conn, fn)]: begin, run [fn], roll back when it
    returns an error and commit otherwise. *)
Definition BeginFunc (fn : World Conn -> option error * World Conn)
    (w : World Conn) : option error * World Conn :=
  let '(err, w1) := call conn_Begin w in
  match err with
  | Some e => (Some e, w1)
  | None =>
      let '(fErr, w2) := fn w1 in
      match fErr with
      | Some e => let '(_, w3) := call tx_Rollback w2 in (Some e, w3)
      | None => call tx_Commit w2
      end
  end.

(** *** Closures that write to a captured variable *)

(** The variable of type [X] a closure captures travels with the
    session. *)
Definition bind_var {X} (x : X) (w : World Conn) : World (Conn * X) :=
  mkWorld (backend w, x) (slept w).

Definition conn_of {X} (w : World (Conn * X)) : World Conn :=
  mkWorld (fst (backend w)) (slept w).

Definition var_of {X} (w : World (Conn * X)) : X := snd (backend w).

(** [func() error { return q.Scan(&x) }]: [x] is written on success
    only. *)
Definition scan_into {X} (q : Conn -> result X * Conn) : handler (Conn * X) :=
  fun '(c, x) =>
    match q c with
    | (Ok v, c') => (None, (c', v))
    | (Err e, c') => (Some e, (c', x))
    end.

(** *** The operations of [DBStorage] *)

Definition createTables (dbs : DBStorage) : World Conn -> option error * World Conn :=
  BeginFunc (fun w =>
    let '(err, w1) :=
      errorHanlder dbs (scan_into (query_table_exists "gauges"))
        (bind_var false w) in
    match err with
    | Some e => (Some (Wrapped "get gauges table" e), conn_of w1)
    | None =>
        let '(err, w2) :=
          if negb (var_of w1)
          then errorHanlder dbs (conn_Exec CreateGauges) (conn_of w1)
          else (None, conn_of w1) in
        match err with
        | Some e => (Some (Wrapped "create gauges table" e), w2)
        | None =>
            let '(err, w3) :=
              errorHanlder dbs (scan_into (query_table_exists "counters"))
                (bind_var false w2) in
            match err with
            | Some e => (Some (Wrapped "get counters table" e), conn_of w3)
            | None =>
                let '(err, w4) :=
                  if negb (var_of w3)
                  then errorHanlder dbs (conn_Exec CreateCounters) (conn_of w3)
                  else (None, conn_of w3) in
                match err with
                | Some e => (Some (Wrapped "create counters table" e), w4)
                | None => (None, w4)
                end
            end
        end
    end).

Definition NewDBStorage (w : World Conn) : result DBStorage * World Conn :=
  let dbs := mkDBStorage 0 0 0 in
  let '(err, w1) := createTables dbs w in
  match err with
  | Some e => (Err (Wrapped "create tables in database" e), w1)
  | None => (Ok dbs, w1)
  end.

Definition updateCounterByMetrics (dbs : DBStorage) (id : string)
    (delta : option Z) (w : World Conn) : result Metrics * World Conn :=
  match delta with
  | None => (Err (ErrText "delta is empty"), w)
  | Some d =>
      let '(err, w1) :=
        errorHanlder dbs (scan_into (query_upsert_counter id d))
          (bind_var 0 w) in
      match err with
      | Some e => (Err (Wrapped "query execution" e), conn_of w1)
      | None => (Ok (NewMetricsForCounter id (var_of w1)), conn_of w1)
      end
  end.

Definition updateGaugeByMetrics (dbs : DBStorage) (id : string)
    (value : option float) (w : World Conn) : result Metrics * World Conn :=
  match value with
  | None => (Err (ErrText "value is empty"), w)
  | Some v =>
      let '(err, w1) :=
        errorHanlder dbs (scan_into (query_upsert_gauge id v))
          (bind_var 0%float w) in
      match err with
      | Some e => (Err (Wrapped "query execution" e), conn_of w1)
      | None => (Ok (NewMetricsForGauge id (var_of w1)), conn_of w1)
      end
  end.

Definition UpdateByMetrics (dbs : DBStorage) (m : Metrics) (w : World Conn)
  : result Metrics * World Conn :=
  if decide (MType m = "counter")
  then updateCounterByMetrics dbs (ID m) (Delta m) w
  else if decide (MType m = "gauge")
       then updateGaugeByMetrics dbs (ID m) (Value m) w
       else (Err (ErrText ("unknown type " ++ MType m)), w).

Definition valueCounterByMetrics (dbs : DBStorage) (id : string)
    (w : World Conn) : result Metrics * World Conn :=
  let '(err, w1) :=
    errorHanlder dbs (scan_into (query_select_counter id)) (bind_var 0 w) in
  match err with
  | Some e => (Err (Wrapped ("get counter " ++ id) e), conn_of w1)
  | None => (Ok (NewMetricsForCounter id (var_of w1)), conn_of w1)
  end.

Definition valueGaugeByMetrics (dbs : DBStorage) (id : string)
    (w : World Conn) : result Metrics * World Conn :=
  let '(err, w1) :=
    errorHanlder dbs (scan_into (query_select_gauge id))
      (bind_var 0%float w) in
  match err with
  | Some e => (Err (Wrapped ("get gauge " ++ id) e), conn_of w1)
  | None => (Ok (NewMetricsForGauge id (var_of w1)), conn_of w1)
  end.

Definition ValueByMetrics (dbs : DBStorage) (m : Metrics) (w : World Conn)
  : result Metrics * World Conn :=
  if decide (MType m = "counter") then valueCounterByMetrics dbs (ID m) w
  else if decide (MType m = "gauge") then valueGaugeByMetrics dbs (ID m) w
       else (Err (ErrText ("unknown type " ++ MType m)), w).

(** The loop of [Updates] that fills the batch: [*val.Value] and
    [*val.Delta] are dereferenced as they are, and a metric of any other
    kind queues nothing. *)
Fixpoint queueMetrics (metrics : list Metrics) (batch : list Stmt)
  : outcome (list Stmt) :=
  match metrics with
  | [] => Returns batch
  | val :: rest =>
      if decide (MType val = "gauge")
      then match Value val with
           | Some v => queueMetrics rest (batch ++ [UpsertGauge (ID val) v])
           | None => Panics
           end
      else if decide (MType val = "counter")
           then match Delta val with
                | Some d => queueMetrics rest (batch ++ [UpsertCounter (ID val) d])
                | None => Panics
                end
           else queueMetrics rest batch
  end.

Definition Updates (dbs : DBStorage) (metrics : list Metrics) (w : World Conn)
  : outcome (option error) * World Conn :=
  match queueMetrics metrics [] with
  | Panics => (Panics, w)
  | Returns batch =>
      let '(err, w1) :=
        BeginFunc (errorHanlder dbs (SendBatch_Close batch)) w in
      match err with
      | Some e => (Returns (Some (Wrapped "send batch" e)), w1)
      | None => (Returns None, w1)
      end
  end.

(** ** The agent *)

(** What the agent has handed to its transport. *)
Inductive Push : Type :=
| PushBatch (stats : gmap string float)       (* client.SendBatch *)
| PushCounter (name : string) (value : Z).    (* client.SendCounter *)

(** The collector as the agent sees it: the pushes made so far, oldest
    first, and the failures still to come, one entry per push. *)
Record Transport : Type := mkTransport {
  pushes : list Push;
  net_faults : list (option error)
}.

(** Modelled from the spec: [client.SendBatch] and [client.SendCounter]
    are not among the sources; each is one network round trip that
    succeeds or fails. *)
Definition push (p : Push) (t : Transport) : option error * Transport :=
  (mjoin (head (net_faults t)), mkTransport (pushes t ++ [p]) (tail (net_faults t))).

(** Modelled from the spec: the metrics a pushed batch consists of, one
    Gauge per entry of the map handed to [client.SendBatch]. *)
Definition batch_metrics (stats : gmap string float) : list Metrics :=
  (fun kv => NewMetricsForGauge kv.1 kv.2) <$> map_to_list stats.

(** The entries of the [zap] logger the agent writes. *)
Inductive LogEntry : Type :=
| LogInfo (msg : string)
| LogWarn (msg : string) (value : option Z) (err : error)
| LogError (msg : string) (err : error).

(** A goroutine of the [errgroup]. *)
Inductive task : Type :=
| Spawned
| Running
| Returned (err : option error).

Section Agent.

(** [runtime.MemStats], and [memstats.GetMemStatsForServer], which is
    not among the sources: the map of runtime statistics it builds from
    a snapshot. *)
Variable MemStats : Type.
Variable GetMemStatsForServer : MemStats -> gmap string float.

Record Agent : Type := mkAgent {
  reportInterval : Z;
  pollInterval : Z;
  pollCount : Z;
  ms : MemStats
}.

(** [NewAgent]; [sample] is what [runtime.ReadMemStats] reads. *)
Definition NewAgent (reportInterval pollInterval : Z) (sample : MemStats)
  : Agent :=
  mkAgent reportInterval pollInterval 0 sample.

(** [sendReport]; [r] is the result of [rand.Float64()]. *)
Definition sendReport (a : Agent) (r : float)
    (env : Transport * list LogEntry) : Transport * list LogEntry :=
  let '(net, logs) := env in
  let msForServer := <["RandomValue" := r]> (GetMemStatsForServer (ms a)) in
  let '(err, net1) := push (PushBatch msForServer) net in
  let logs1 := match err with
               | Some e => logs ++ [LogWarn "Push memstats" None e]
               | None => logs
               end in
  let '(err, net2) := push (PushCounter "PollCount" (pollCount a)) net1 in
  let logs2 := match err with
               | Some e => logs1 ++ [LogWarn "Error on sending poll count"
                                       (Some (pollCount a)) e]
               | None => logs1
               end in
  (net2, logs2).

(** The state of [Run]: the agent, its environment, the context of
    [signal.NotifyContext], the first error of the [errgroup], and the
    two goroutines. *)
Record RunState : Type := mkRun {
  agent : Agent;
  net : Transport;
  logs : list LogEntry;
  ctxDone : bool;
  egErr : option error;
  reporter : task;
  sampler : task
}.

(** [egCtx.Done()] is closed once [ctx] is cancelled or a goroutine of
    the group has returned an error. *)
Definition egCtxDone (st : RunState) : bool :=
  ctxDone st || negb (isNil (egErr st)).

(** What [eg.Go] does when its function returns [err]: the first error
    that is not nil is kept (and cancels [egCtx]). *)
Definition eg_returned (err : option error) (st : RunState) : option error :=
  match egErr st with
  | Some e => Some e
  | None => err
  end.

(** What can happen next in [Run]. *)
Inductive Event : Type :=
| ReporterStarts
| SamplerStarts
| ReportTick (r : float)        (* the reporter's [time.After] fires *)
| PollTick (sample : MemStats)  (* the sampler's [time.After] fires *)
| Signal                        (* SIGINT or SIGTERM *)
| ReporterSeesDone              (* the reporter takes [<-egCtx.Done()] *)
| SamplerSeesDone.              (* the sampler takes [<-ctx.Done()] *)

(** One step of [Run]; [None] when the event cannot happen in [st]. *)
Definition step (ev : Event) (st : RunState) : option RunState :=
  match ev, reporter st, sampler st with
  | ReporterStarts, Spawned, _ =>
      Some (mkRun (agent st) (net st) (logs st ++ [LogInfo "Send report start"])
              (ctxDone st) (egErr st) Running (sampler st))
  | SamplerStarts, _, Spawned =>
      Some (mkRun (agent st) (net st) (logs st ++ [LogInfo "Read mem stats start"])
              (ctxDone st) (egErr st) (reporter st) Running)
  | ReportTick r, Running, _ =>
      let env := sendReport (agent st) r (net st, logs st) in
      Some (mkRun (agent st) (fst env) (snd env) (ctxDone st) (egErr st)
              Running (sampler st))
  | PollTick sample, _, Running =>
      let a := agent st in
      Some (mkRun (mkAgent (reportInterval a) (pollInterval a)
                     (wrap64 (pollCount a + 1)) sample)
              (net st) (logs st) (ctxDone st) (egErr st)
              (reporter st) Running)
  | Signal, _, _ =>
      Some (mkRun (agent st) (net st) (logs st) true (egErr st)
              (reporter st) (sampler st))
  | ReporterSeesDone, Running, _ =>
      if egCtxDone st
      then Some (mkRun (agent st) (net st)
                   (logs st ++ [LogInfo "Send report done"])
                   (ctxDone st) (eg_returned None st)
                   (Returned None) (sampler st))
      else None
  | SamplerSeesDone, _, Running =>
      if ctxDone st
      then Some (mkRun (agent st) (net st)
                   (logs st ++ [LogInfo "Read mem stats done"])
                   (ctxDone st) (eg_returned None st)
                   (reporter st) (Returned None))
      else None
  | _, _, _ => None
  end.

(** A schedule of events, from [st]. *)
Fixpoint run (evs : list Event) (st : RunState) : option RunState :=
  match evs with
  | [] => Some st
  | ev :: evs' =>
      match step ev st with
      | Some st' => run evs' st'
      | None => None
      end
  end.

(** [Run] at its two [eg.Go] calls. *)
Definition start (a : Agent) (t : Transport) : RunState :=
  mkRun a t [] false None Spawned Spawned.

(** [eg.Wait()] and the end of [Run]: once both goroutines have
    returned, what [Run] returns and the final log. *)
Definition Run_returns (st : RunState) : option (option error * list LogEntry) :=
  match reporter st, sampler st with
  | Returned _, Returned _ =>
      match egErr st with
      | Some e =>
          Some (Some (Wrapped "problem with working agent" e),
                logs st ++ [LogError "Problem with working agent" e])
      | None => Some (None, logs st)
      end
  | _, _ => None
  end.

End Agent.

Arguments mkAgent {MemStats} _ _ _ _.
Arguments reportInterval {MemStats} _.
Arguments pollInterval {MemStats} _.
Arguments pollCount {MemStats} _.
Arguments ms {MemStats} _.
Arguments NewAgent {MemStats} _ _ _.
Arguments sendReport {MemStats} _ _ _ _.
Arguments mkRun {MemStats} _ _ _ _ _ _ _.
Arguments agent {MemStats} _.
Arguments net {MemStats} _.
Arguments logs {MemStats} _.
Arguments ctxDone {MemStats} _.
Arguments egErr {MemStats} _.
Arguments reporter {MemStats} _.
Arguments sampler {MemStats} _.
Arguments egCtxDone {MemStats} _.
Arguments eg_returned {MemStats} _ _.
Arguments ReporterStarts {MemStats}.
Arguments SamplerStarts {MemStats}.
Arguments ReportTick {MemStats} _.
Arguments PollTick {MemStats} _.
Arguments Signal {MemStats}.
Arguments ReporterSeesDone {MemStats}.
Arguments SamplerSeesDone {MemStats}.
Arguments step {MemStats} _ _ _.
Arguments run {MemStats} _ _ _.
Arguments start {MemStats} _ _.
Arguments Run_returns {MemStats} _.

(** ** Runs and sample environments *)

(** [UpdateByMetrics] for each metric of [ms] in turn: what each call
    returns, oldest first. *)
Fixpoint updateAll (dbs : DBStorage) (ms : list Metrics) (w : World Conn)
  : list (result Metrics) * World Conn :=
  match ms with
  | [] => ([], w)
  | m :: ms' =>
      let '(r, w1) := UpdateByMetrics dbs m w in
      let '(rs, w2) := updateAll dbs ms' w1 in
      (r :: rs, w2)
  end.

(** The metric of a Counter update of [name] by [delta], and of a Gauge
    update of [name] to [value]. *)
Definition counter_update (name : string) (delta : Z) : Metrics :=
  mkMetrics name "counter" (Some delta) None.

Definition gauge_update (name : string) (value : float) : Metrics :=
  mkMetrics name "gauge" None (Some value).

Definition succeeded {A} (r : result A) : Prop :=
  match r with Ok _ => True | Err _ => False end.

Definition total (ds : list Z) : Z := foldr Z.add 0 ds.

(** The stored value of the Counter [name], 0 when there is none, and the
    stored value of the Gauge [name]. *)
Definition counter_row (name : string) (t : Tables) : option Z :=
  counters t ≫= (fun c => c !! name).

Definition counter_value (name : string) (t : Tables) : Z :=
  default 0 (counter_row name t).

Definition gauge_row (name : string) (t : Tables) : option float :=
  gauges t ≫= (fun g => g !! name).

(** A backend without relations, and one with both relations empty; each
    is a single connection in which the environment injects no fault. *)
Definition fresh_backend : World Conn :=
  mkWorld (mkConn false (mkTables None None) None [] []) [].

Definition ready_backend : World Conn :=
  mkWorld (mkConn false (mkTables (Some ∅) (Some ∅)) None [] []) [].

(** The requests a call has issued, given the session before and after. *)
Definition issued_since (w w' : World Conn) : list Request :=
  drop (length (issued (backend w))) (issued (backend w')).

(** In [reqs], every [create] comes after a [check]. *)
Definition checked_before (check create : Request) (reqs : list Request) : Prop :=
  forall i, reqs !! i = Some create ->
    exists j, (j < i)%nat /\ reqs !! j = Some check.

(** *** The reporter's batch as the specification words it *)

(** The metrics [batch] are a Gauge for each statistic of [stats], the
    random Gauge, and exactly one Counter, named "PollCount", with the
    sample count. *)
Definition batch_as_specified (stats : gmap string float) (count : Z)
    (batch : list Metrics) : Prop :=
  (forall k v, stats !! k = Some v -> NewMetricsForGauge k v ∈ batch) /\
  (exists r, NewMetricsForGauge "RandomValue" r ∈ batch) /\
  (exists m, m ∈ batch /\ m = NewMetricsForCounter "PollCount" count /\
     forall m', m' ∈ batch -> MType m' = "counter" -> m' = m).

(** A sample run: the statistics are read as a map already, and a fresh
    agent sees one sampler tick and then one reporter tick. *)
Definition reading0 : gmap string float := {["Alloc" := 512%float; "NumGC" := 0%float]}.
Definition reading1 : gmap string float := {["Alloc" := 1024%float; "NumGC" := 3%float]}.

Definition one_tick_each : option (RunState (gmap string float)) :=
  run (fun stats => stats)
    [ReporterStarts; SamplerStarts; PollTick reading1; ReportTick 0.25%float]
    (start (NewAgent 10 2 reading0) (mkTransport [] [])).

(** How [Run] can only be: the group holds no error, and a goroutine that
    has returned has returned nil, after the signal. *)
Definition no_task_failed {MemStats} (st : RunState MemStats) : Prop :=
  egErr st = None /\
  (forall err, reporter st = Returned err -> err = None /\ ctxDone st = true) /\
  (forall err, sampler st = Returned err -> err = None /\ ctxDone st = true).

(** The deltas [ds], and the values they lead to from [base], fit the
    [INTEGER] column. *)
Definition fits_counter (base : Z) (ds : list Z) : Prop :=
  forall k d, ds !! k = Some d ->
    in_int4 d = true /\ in_int4 (base + total (take (S k) ds)) = true.

(** ** Reading whole relations *)

(** [pgx.Rows] over rows [(Name, value)]: the rows not yet read, and the
    error the reading has ended with. *)
Record Rows (A : Type) : Type := mkRows {
  pending : list (string * A);
  rows_err : option error
}.
Arguments mkRows {A} _ _.
Arguments pending {A} _.
Arguments rows_err {A} _.

(** A round trip that is not one of the statements [issued] lists: it only
    takes the next injected fault. *)
Definition other_round_trip (c : Conn) : option error * Conn :=
  (mjoin (head (faults c)),
   mkConn (pooled c) (tables c) (saved c) (tail (faults c)) (issued c)).

(** [SELECT Name, Value FROM gauges] and [SELECT Name, Delta FROM
    counters]: every row of the relation. *)
Definition sql_all_gauges (t : Tables) : result (list (string * float)) :=
  match gauges t with
  | None => Err undefined_table
  | Some g => Ok (map_to_list g)
  end.

Definition sql_all_counters (t : Tables) : result (list (string * Z)) :=
  match counters t with
  | None => Err undefined_table
  | Some c => Ok (map_to_list c)
  end.

(** [func() error { var err error; rows, err = dbs.conn.Query(ctx, q);
    return err }], for the query whose rows are [sem]: [rows] is assigned
    in either case. *)
Definition query_into {A} (sem : Tables -> result (list (string * A)))
  : handler (Conn * Rows A) :=
  fun '(c, _) =>
    let '(fault, c1) := other_round_trip c in
    match fault with
    | Some e => (Some e, (c1, mkRows [] (Some e)))
    | None =>
        match sem (tables c1) with
        | Ok l => (None, (c1, mkRows l None))
        | Err e => (Some e, (c1, mkRows [] (Some e)))
        end
    end.

(** The body [retMap[s] = g] run for the rows [l], first to last. *)
Definition collect {A} (l : list (string * A)) (retMap : gmap string A)
  : gmap string A :=
  foldl (fun m row => <[row.1 := row.2]> m) retMap l.

(** [func() error { _, err := pgx.ForEachRow(rows, []any{&s, &x},
    func() error { retMap[s] = x; return nil }); return err }]:
    [ForEachRow] reads the pending rows into [retMap] and closes [rows];
    rows that have ended with an error give that error again; a read
    that fails delivers no row. *)
Definition forEachRow_into {A} : handler (Conn * (Rows A * gmap string A)) :=
  fun '(c, (rows, retMap)) =>
    match rows_err rows with
    | Some e => (Some e, (c, (mkRows [] (Some e), retMap)))
    | None =>
        let '(fault, c1) := other_round_trip c in
        match fault with
        | Some e => (Some e, (c1, (mkRows [] (Some e), retMap)))
        | None => (None, (c1, (mkRows [] None, collect (pending rows) retMap)))
        end
    end.

(** The common shape of [GetAllGauge] and [GetAllCounter]; [what] is
    "gauges" or "counters". *)
Definition getAll {A} (sem : Tables -> result (list (string * A)))
    (what : string) (dbs : DBStorage) (w : World Conn)
  : result (gmap string A) * World Conn :=
  let '(err, w1) :=
    errorHanlder dbs (query_into sem) (bind_var (mkRows [] None) w) in
  match err with
  | Some e => (Err (Wrapped ("get " ++ what ++ " from db") e), conn_of w1)
  | None =>
      let '(err, w2) :=
        errorHanlder dbs forEachRow_into
          (bind_var (var_of w1, ∅) (conn_of w1)) in
      match err with
      | Some e => (Err (Wrapped ("parse " ++ what ++ " from db") e), conn_of w2)
      | None => (Ok (snd (var_of w2)), conn_of w2)
      end
  end.

Definition GetAllGauge : DBStorage -> World Conn -> result (gmap string float) * World Conn :=
  getAll sql_all_gauges "gauges".

Definition GetAllCounter : DBStorage -> World Conn -> result (gmap string Z) * World Conn :=
  getAll sql_all_counters "counters".

(** ** The goroutines of [Run], access by access *)

(** [step] runs [sendReport] and a sampler tick each as one event.  In
    [Run] the two goroutines run side by side: the reporter blocks in
    [client.SendBatch] and in [client.SendCounter] while the sampler goes
    on, and it loads [a.pollCount] only after [SendBatch] has returned.
    Here every access of [a.ms] and of [a.pollCount], and every call and
    return of the client, is an action of its own, and the actions of the
    two goroutines interleave freely. *)

(** A call of the client hands the push to the transport; its outcome
    comes back when the call returns. *)
Definition send_call (p : Push) (t : Transport) : Transport :=
  mkTransport (pushes t ++ [p]) (net_faults t).

Definition send_returns (t : Transport) : option error * Transport :=
  (mjoin (head (net_faults t)), mkTransport (pushes t) (tail (net_faults t))).

(** Where the reporter goroutine stands: in its [select], or in
    [sendReport]: inside [SendBatch], before [a.pollCount.Load()], inside
    [SendCounter], or before the second [a.pollCount.Load()], the one of
    the log entry for the error [e]. *)
Inductive ReporterAt : Type :=
| RSelect
| RSendBatch
| RLoad
| RSendCounter
| RLogLoad (e : error).

(** Where the sampler goroutine stands: in its [select], or between
    [runtime.ReadMemStats(&a.ms)] and [a.pollCount.Add(1)]. *)
Inductive SamplerAt : Type :=
| SSelect
| SAdd.

Section Goroutines.

Variable MemStats : Type.
Variable GetMemStatsForServer : MemStats -> gmap string float.

Record Conc : Type := mkConc {
  shared : RunState MemStats;
  reporter_at : ReporterAt;
  sampler_at : SamplerAt
}.

Inductive Action : Type :=
| StartReporter
| StartSampler
| Interrupt                      (* SIGINT or SIGTERM *)
| ReporterReturns                (* the reporter takes [<-egCtx.Done()] *)
| SamplerReturns                 (* the sampler takes [<-ctx.Done()] *)
| ReportTimer (r : float)        (* [time.After] fires; [a.ms] is read *)
| BatchReturns                   (* [SendBatch] returns *)
| CountLoaded                    (* [a.pollCount.Load()], [SendCounter] is called *)
| CounterReturns                 (* [SendCounter] returns *)
| CountLogged                    (* [a.pollCount.Load()] of the log entry *)
| PollTimer (sample : MemStats)  (* [time.After] fires; [a.ms] is written *)
| CountAdded.                    (* [a.pollCount.Add(1)] *)

(** An event of [step] that neither goroutine is in the middle of. *)
Definition lift (ev : Event MemStats) (c : Conc) : option Conc :=
  match step GetMemStatsForServer ev (shared c) with
  | Some st => Some (mkConc st (reporter_at c) (sampler_at c))
  | None => None
  end.

Definition with_agent (a : Agent MemStats) (st : RunState MemStats)
  : RunState MemStats :=
  mkRun a (net st) (logs st) (ctxDone st) (egErr st) (reporter st) (sampler st).

Definition with_env (t : Transport) (l : list LogEntry) (st : RunState MemStats)
  : RunState MemStats :=
  mkRun (agent st) t l (ctxDone st) (egErr st) (reporter st) (sampler st).

(** One action of [Run]; [None] when it cannot happen in [c]. *)
Definition act (a : Action) (c : Conc) : option Conc :=
  let st := shared c in
  match a with
  | StartReporter => lift ReporterStarts c
  | StartSampler => lift SamplerStarts c
  | Interrupt => lift Signal c
  | ReporterReturns =>
      match reporter_at c with
      | RSelect => lift ReporterSeesDone c
      | _ => None
      end
  | SamplerReturns =>
      match sampler_at c with
      | SSelect => lift SamplerSeesDone c
      | SAdd => None
      end
  | ReportTimer r =>
      match reporter st, reporter_at c with
      | Running, RSelect =>
          let msForServer :=
            <["RandomValue" := r]> (GetMemStatsForServer (ms (agent st))) in
          Some (mkConc (with_env (send_call (PushBatch msForServer) (net st))
                          (logs st) st)
                  RSendBatch (sampler_at c))
      | _, _ => None
      end
  | BatchReturns =>
      match reporter_at c with
      | RSendBatch =>
          let '(err, net1) := send_returns (net st) in
          let logs1 := match err with
                       | Some e => logs st ++ [LogWarn "Push memstats" None e]
                       | None => logs st
                       end in
          Some (mkConc (with_env net1 logs1 st) RLoad (sampler_at c))
      | _ => None
      end
  | CountLoaded =>
      match reporter_at c with
      | RLoad =>
          Some (mkConc (with_env (send_call (PushCounter "PollCount"
                                               (pollCount (agent st))) (net st))
                          (logs st) st)
                  RSendCounter (sampler_at c))
      | _ => None
      end
  | CounterReturns =>
      match reporter_at c with
      | RSendCounter =>
          let '(err, net1) := send_returns (net st) in
          Some (mkConc (with_env net1 (logs st) st)
                  match err with
                  | Some e => RLogLoad e
                  | None => RSelect
                  end
                  (sampler_at c))
      | _ => None
      end
  | CountLogged =>
      match reporter_at c with
      | RLogLoad e =>
          Some (mkConc (with_env (net st)
                          (logs st ++ [LogWarn "Error on sending poll count"
                                         (Some (pollCount (agent st))) e])
                          st)
                  RSelect (sampler_at c))
      | _ => None
      end
  | PollTimer sample =>
      match sampler st, sampler_at c with
      | Running, SSelect =>
          let a := agent st in
          Some (mkConc (with_agent (mkAgent (reportInterval a) (pollInterval a)
                                      (pollCount a) sample) st)
                  (reporter_at c) SAdd)
      | _, _ => None
      end
  | CountAdded =>
      match sampler_at c with
      | SAdd =>
          let a := agent st in
          Some (mkConc (with_agent (mkAgent (reportInterval a) (pollInterval a)
                                      (wrap64 (pollCount a + 1)) (ms a)) st)
                  (reporter_at c) SSelect)
      | SSelect => None
      end
  end.

(** A schedule of actions, from [c]. *)
Fixpoint acts (sched : list Action) (c : Conc) : option Conc :=
  match sched with
  | [] => Some c
  | a :: sched' =>
      match act a c with
      | Some c' => acts sched' c'
      | None => None
      end
  end.

(** [Run] at its two [eg.Go] calls. *)
Definition go (a : Agent MemStats) (t : Transport) : Conc :=
  mkConc (start a t) RSelect SSelect.

(** The actions an event of [step] stands for: the goroutine goes through
    its report, or its sample, with nothing in between. *)
Definition unfolded (ev : Event MemStats) (st : RunState MemStats)
  : list Action :=
  match ev with
  | ReporterStarts => [StartReporter]
  | SamplerStarts => [StartSampler]
  | Signal => [Interrupt]
  | ReporterSeesDone => [ReporterReturns]
  | SamplerSeesDone => [SamplerReturns]
  | ReportTick r =>
      [ReportTimer r; BatchReturns; CountLoaded; CounterReturns]
      ++ match mjoin (net_faults (net st) !! 1%nat) with
         | Some _ => [CountLogged]
         | None => []
         end
  | PollTick sample => [PollTimer sample; CountAdded]
  end.

Fixpoint unfolded_run (evs : list (Event MemStats)) (st : RunState MemStats)
  : list Action :=
  match evs with
  | [] => []
  | ev :: evs' =>
      unfolded ev st
      ++ match step GetMemStatsForServer ev st with
         | Some st' => unfolded_run evs' st'
         | None => []
         end
  end.

(** What a schedule alone determines: the additions to the counter, the
    snapshot written last, and the pushes handed to the transport, given
    [n] additions and the snapshot [s] before it. *)
Fixpoint additions (sched : list Action) : nat :=
  match sched with
  | [] => O
  | CountAdded :: sched' => S (additions sched')
  | _ :: sched' => additions sched'
  end.

Fixpoint written (s : MemStats) (sched : list Action) : MemStats :=
  match sched with
  | [] => s
  | PollTimer s' :: sched' => written s' sched'
  | _ :: sched' => written s sched'
  end.

Fixpoint handed (n : nat) (s : MemStats) (sched : list Action) : list Push :=
  match sched with
  | [] => []
  | PollTimer s' :: sched' => handed n s' sched'
  | CountAdded :: sched' => handed (S n) s sched'
  | ReportTimer r :: sched' =>
      PushBatch (<["RandomValue" := r]> (GetMemStatsForServer s))
      :: handed n s sched'
  | CountLoaded :: sched' =>
      PushCounter "PollCount" (wrap64 (Z.of_nat n)) :: handed n s sched'
  | _ :: sched' => handed n s sched'
  end.

(** The actions that take the reporter of [c] to the end of the report it
    is in, and the sampler to the end of its sample. *)
Definition log_entry_after (k : nat) (t : Transport) : list Action :=
  match mjoin (net_faults t !! k) with
  | Some _ => [CountLogged]
  | None => []
  end.

Definition finish_report (c : Conc) : list Action :=
  match reporter_at c with
  | RSelect => []
  | RSendBatch =>
      [BatchReturns; CountLoaded; CounterReturns]
      ++ log_entry_after 1 (net (shared c))
  | RLoad => [CountLoaded; CounterReturns] ++ log_entry_after 0 (net (shared c))
  | RSendCounter => CounterReturns :: log_entry_after 0 (net (shared c))
  | RLogLoad _ => [CountLogged]
  end.

Definition finish_sample (c : Conc) : list Action :=
  match sampler_at c with
  | SSelect => []
  | SAdd => [CountAdded]
  end.

(** The signal, and then each goroutine to its [select] and out of it. *)
Definition shutdown (c : Conc) : list Action :=
  Interrupt
  :: match reporter (shared c) with
     | Spawned => [StartReporter; ReporterReturns]
     | Running => finish_report c ++ [ReporterReturns]
     | Returned _ => []
     end
  ++ match sampler (shared c) with
     | Spawned => [StartSampler; SamplerReturns]
     | Running => finish_sample c ++ [SamplerReturns]
     | Returned _ => []
     end.

(** The Counter push a report still owes once its batch has gone out. *)
Definition owed (c : Conc) : bool :=
  match reporter_at c with
  | RSendBatch | RLoad => true
  | _ => false
  end.

(** How a run of [go] can only be: a goroutine is inside its report or
    its sample only while it runs. *)
Definition in_step (c : Conc) : Prop :=
  (reporter_at c <> RSelect -> reporter (shared c) = Running) /\
  (sampler_at c <> SSelect -> sampler (shared c) = Running).

End Goroutines.

Arguments mkConc {MemStats} _ _ _.
Arguments shared {MemStats} _.
Arguments reporter_at {MemStats} _.
Arguments sampler_at {MemStats} _.
Arguments StartReporter {MemStats}.
Arguments StartSampler {MemStats}.
Arguments Interrupt {MemStats}.
Arguments ReporterReturns {MemStats}.
Arguments SamplerReturns {MemStats}.
Arguments ReportTimer {MemStats} _.
Arguments BatchReturns {MemStats}.
Arguments CountLoaded {MemStats}.
Arguments CounterReturns {MemStats}.
Arguments CountLogged {MemStats}.
Arguments PollTimer {MemStats} _.
Arguments CountAdded {MemStats}.
Arguments lift {MemStats} _ _ _.
Arguments with_agent {MemStats} _ _.
Arguments with_env {MemStats} _ _ _.
Arguments act {MemStats} _ _ _.
Arguments acts {MemStats} _ _ _.
Arguments go {MemStats} _ _.
Arguments unfolded {MemStats} _ _.
Arguments unfolded_run {MemStats} _ _ _.
Arguments additions {MemStats} _.
Arguments written {MemStats} _ _.
Arguments handed {MemStats} _ _ _ _.
Arguments finish_report {MemStats} _.
Arguments finish_sample {MemStats} _.
Arguments shutdown {MemStats} _.
Arguments owed {MemStats} _.
Arguments in_step {MemStats} _.

(** The two pushes of a report: the batch, then the Counter. *)
Definition report_pushes (p : gmap string float * Z) : list Push :=
  [PushBatch p.1; PushCounter "PollCount" p.2].

(** ** The agent's earlier main loop *)

(** The loop of [main] in the agent's earlier command (the source file
    without a name): one goroutine that samples, sleeps and, when
    [timeToPush] has reached [reportInterval], reports. *)

(** The value of a 64-bit unsigned integer after an operation whose exact
    result is [z]. *)
Definition wrapU64 (z : Z) : Z := z mod 2 ^ 64.

(** What that loop hands to its client: [client.PushStats(ms)],
    [client.SendCounter(name, strconv.Itoa(value))] and
    [client.SendGauge(name, strconv.FormatFloat(value, 'f', -1, 64))],
    each with the value that is rendered. *)
Inductive OldPush : Type :=
| OldStats (stats : gmap string float)
| OldCounter (name : string) (value : Z)
| OldGauge (name : string) (value : float).

Section OldMain.

(** The state of package [memstats], and [memstats.GetMemStatsForServer],
    which is not among the sources; the two intervals [parseFlags]
    sets. *)
Variable MemStats : Type.
Variable GetMemStatsForServer : MemStats -> gmap string float.
Variables reportInterval pollInterval : Z.

(** The locals [timeToPush] and [pollCount], the snapshot of package
    [memstats], the pushes made, the failures of pushes still to come,
    and the arguments of [time.Sleep]. *)
Record Loop : Type := mkLoop {
  timeToPush : Z;
  count : Z;
  snapshot : MemStats;
  sent : list OldPush;
  push_faults : list (option error);
  naps : list Z
}.

(** Modelled from the spec: the three functions of [client] are not
    among the sources; each is one network round trip that succeeds or
    fails. *)
Definition old_push (p : OldPush) (l : Loop) : option error * Loop :=
  (mjoin (head (push_faults l)),
   mkLoop (timeToPush l) (count l) (snapshot l) (sent l ++ [p])
     (tail (push_faults l)) (naps l)).

(** The body of [if timeToPush == reportInterval]; [r] is the result of
    [rand.Float64()].  A push that fails panics. *)
Definition old_report (r : float) (l : Loop) : outcome unit * Loop :=
  let '(err, l1) := old_push (OldStats (GetMemStatsForServer (snapshot l))) l in
  match err with
  | Some _ => (Panics, l1)
  | None =>
      let '(err, l2) := old_push (OldCounter "PollCount" (count l)) l1 in
      match err with
      | Some _ => (Panics, l2)
      | None =>
          let '(err, l3) := old_push (OldGauge "RandomValue" r) l2 in
          match err with
          | Some _ => (Panics, l3)
          | None =>
              (Returns tt,
               mkLoop 0 (count l3) (snapshot l3) (sent l3) (push_faults l3)
                 (naps l3))
          end
      end
  end.

(** One turn of the loop; [sample] is what [memstats.ReadMemStats]
    reads. *)
Definition iteration (input : MemStats * float) (l : Loop) : outcome unit * Loop :=
  let '(sample, r) := input in
  let '(out, l1) :=
    if timeToPush l =? reportInterval then old_report r l else (Returns tt, l) in
  match out with
  | Panics => (Panics, l1)
  | Returns _ =>
      (Returns tt,
       mkLoop (wrapU64 (timeToPush l1 + pollInterval)) (wrap64 (count l1 + 1))
         sample (sent l1) (push_faults l1)
         (naps l1 ++ [seconds pollInterval]))
  end.

(** The first turns of the loop, one for each input. *)
Fixpoint main_loop (inputs : list (MemStats * float)) (l : Loop)
  : outcome unit * Loop :=
  match inputs with
  | [] => (Returns tt, l)
  | input :: inputs' =>
      match iteration input l with
      | (Returns _, l1) => main_loop inputs' l1
      | (Panics, l1) => (Panics, l1)
      end
  end.

(** [main] at the head of its loop. *)
Definition main_start (s0 : MemStats) (faults : list (option error)) : Loop :=
  mkLoop 0 0 s0 [] faults [].

End OldMain.

Arguments mkLoop {MemStats} _ _ _ _ _ _.
Arguments timeToPush {MemStats} _.
Arguments count {MemStats} _.
Arguments snapshot {MemStats} _.
Arguments sent {MemStats} _.
Arguments push_faults {MemStats} _.
Arguments naps {MemStats} _.
Arguments old_push {MemStats} _ _.
Arguments old_report {MemStats} _ _ _.
Arguments iteration {MemStats} _ _ _ _ _.
Arguments main_loop {MemStats} _ _ _ _ _.
Arguments main_start {MemStats} _ _.

(** The values of the Counters among pushes. *)
Definition sent_counts (ps : list OldPush) : list Z :=
  omap (fun p => match p with OldCounter _ v => Some v | _ => None end) ps.

(** The values of the Counter "PollCount" in [k] reports made every
    [q] turns of the loop. *)
Definition counts_of_reports (q k : nat) : list Z :=
  (fun i => wrap64 (Z.of_nat (S i * q))) <$> seq 0 k.

(** * Properties *)

(** ** Machine arithmetic *)

Lemma wrap64_mod (z : Z) : wrap64 z mod 2 ^ 64 = z mod 2 ^ 64.
Proof.
  unfold wrap64.
  rewrite <- (Zminus_mod_idemp_l ((z + 2 ^ 63) mod 2 ^ 64)).
  rewrite Z.mod_mod by lia.
  rewrite Zminus_mod_idemp_l. f_equal. lia.
Qed.

Lemma wrap64_congr (a b : Z) :
  a mod 2 ^ 64 = b mod 2 ^ 64 -> wrap64 a = wrap64 b.
Proof.
  intros H. unfold wrap64.
  rewrite <- (Zplus_mod_idemp_l a), <- (Zplus_mod_idemp_l b), H.
  reflexivity.
Qed.

Lemma seconds_step (dur policy : Z) (k : nat) :
  seconds (wrap64 (dur + policy) + Z.of_nat k * policy)
  = seconds (dur + Z.of_nat (S k) * policy).
Proof.
  unfold seconds. apply wrap64_congr.
  rewrite <- Zmult_mod_idemp_l.
  rewrite <- (Zplus_mod_idemp_l (wrap64 (dur + policy))), wrap64_mod.
  rewrite Zplus_mod_idemp_l, Zmult_mod_idemp_l.
  f_equal. lia.
Qed.

(** ** The resilience layer *)

Lemma delays_S (dur policy : Z) (r : nat) :
  delays dur policy (S r)
  = seconds dur :: delays (wrap64 (dur + policy)) policy r.
Proof.
  unfold delays. cbn [seq fmap list_fmap]. f_equal.
  - f_equal. lia.
  - rewrite <- seq_shift, <- list_fmap_compose.
    apply list_fmap_ext. intros _ k _. cbn.
    symmetry. apply seconds_step.
Qed.

Lemma outcome_at_S {B} (op : handler B) (k : nat) (b : B) :
  outcome_at op (S k) b = outcome_at op k (snd (op b)).
Proof. reflexivity. Qed.

Lemma retryLoop_run {B} (policy : Z) (op : handler B) (n : nat) :
  forall (dur : Z) (err : option error) (b : B) (sl : list Z),
  exists r : nat,
    let last := match r with O => err | S r' => outcome_at op r' b end in
    (r <= n)%nat /\
    retryLoop policy op n dur err (mkWorld b sl)
    = (last, mkWorld (state_after op r b) (sl ++ delays dur policy r)) /\
    (forall k, (S k < r)%nat -> transient (outcome_at op k b) = true) /\
    (n <> O -> r <> O) /\
    ((r < n)%nat -> transient last = false).
Proof.
  induction n as [|n IH]; intros dur err b sl.
  - exists O. cbn. rewrite app_nil_r. repeat split; (lia || done).
  - cbn [retryLoop]. unfold call, time_Sleep. cbn [backend slept].
    destruct (op b) as [err' b'] eqn:Hop.
    destruct (transient err') eqn:Htr.
    + destruct (IH (wrap64 (dur + policy)) err' b' (sl ++ [seconds dur]))
        as (r & Hle & Hrun & Hall & Hpos & Hstop); cbn zeta in *.
      exists (S r). cbn zeta.
      assert (Hb : b' = snd (op b)) by (rewrite Hop; done).
      assert (Hlast : match r with O => err' | S r' => outcome_at op r' b' end
                      = outcome_at op r b).
      { destruct r; [unfold outcome_at; cbn; by rewrite Hop|].
        by rewrite outcome_at_S, Hb. }
      rewrite Hlast in *.
      split; [lia|]. split; [|split; [|split; [lia|]]].
      * rewrite Hrun, delays_S, <- app_assoc. cbn. by rewrite Hb.
      * intros [|k] Hk.
        -- unfold outcome_at. cbn. by rewrite Hop.
        -- rewrite outcome_at_S, <- Hb. apply Hall. lia.
      * intros Hlt. apply Hstop. lia.
    + exists 1%nat. cbn zeta. unfold outcome_at. cbn. rewrite Hop. cbn.
      split; [lia|]. split; [by replace (dur + Z.of_nat 0 * policy) with dur by lia|]. split; [intros k Hk; lia|].
      split; [lia|done].
Qed.

(** The run of [errorHanlder] on any operation: [r] retries. *)
Lemma errorHanlder_run {B} (dbs : DBStorage) (op : handler B) :
  forall (b : B) (sl : list Z),
  exists r : nat,
    errorHanlder dbs op (mkWorld b sl)
    = (outcome_at op r b,
       mkWorld (state_after op (S r) b)
         (sl ++ delays (duration dbs) (durationPolicy dbs) r)) /\
    (forall k, (k < r)%nat -> transient (outcome_at op k b) = true) /\
    (r <= Z.to_nat (retryCount dbs))%nat /\
    (transient (outcome_at op r b) = false \/ r = Z.to_nat (retryCount dbs)) /\
    (transient (outcome_at op O b) = false -> r = O) /\
    (retryCount dbs <= 0 -> r = O).
Proof.
  intros b sl.
  unfold errorHanlder, call. cbn [backend slept].
  destruct (op b) as [err b1] eqn:Hop.
  assert (H0 : outcome_at op O b = err) by (unfold outcome_at; cbn; by rewrite Hop).
  assert (Hb : b1 = snd (op b)) by (by rewrite Hop).
  assert (Hstay : (err, mkWorld b1 sl)
                  = (outcome_at op O b,
                     mkWorld (state_after op 1 b) (sl ++ delays (duration dbs) (durationPolicy dbs) O))).
  { cbn. by rewrite app_nil_r, H0, Hb. }
  destruct (isNil err || (retryCount dbs <=? 0)) eqn:Hnow.
  { exists O. rewrite Hstay.
    split; [done|]. split; [intros k Hk; lia|]. split; [lia|].
    split; [|done].
    apply orb_true_iff in Hnow as [Hnil | Hle].
    - left. rewrite H0. by destruct err.
    - right. apply Z.leb_le in Hle. lia. }
  apply orb_false_iff in Hnow as [Hnil Hpos]. apply Z.leb_gt in Hpos.
  destruct (transient err) eqn:Htr.
  + destruct (retryLoop_run (durationPolicy dbs) op (Z.to_nat (retryCount dbs))
                (duration dbs) err b1 sl)
      as (r & Hr & Hrun & Hall & Hpos' & Hstop); cbn zeta in *.
    exists r.
    assert (Hlast : match r with O => err | S r' => outcome_at op r' b1 end
                    = outcome_at op r b).
    { destruct r; [done|]. by rewrite outcome_at_S, Hb. }
    rewrite Hlast in *. rewrite Hrun.
    split; [|split; [|split; [|split; [|split]]]].
    * by rewrite Hb.
    * intros [|k] Hk; [by rewrite H0|].
      rewrite outcome_at_S, <- Hb. apply Hall. lia.
    * done.
    * destruct (decide (r = Z.to_nat (retryCount dbs))); [by right|].
      left. apply Hstop. lia.
    * rewrite H0. congruence.
    * lia.
  + exists O. rewrite Hstay.
    split; [done|]. split; [intros k Hk; lia|]. split; [lia|].
    split; [left; by rewrite H0|]. done.
Qed.

(** C2: the resilience layer runs the operation once and returns at once
    when that succeeds, fails with an error that is not transient, or when
    [retryCount] is not positive.  Otherwise it retries: [r] retries, at
    most [retryCount], each after a sleep of the initial delay plus the
    increment times the number of retries before it; every attempt but the
    last failed transiently; it returns what the last attempt returned, and
    the last attempt is either not a transient failure or the last one
    allowed.  With [retryCount = 3], delay 1 and increment 1, three
    transient failures and then a success make 4 invocations with sleeps
    of 1, 2 and 3 seconds; a failure that is not transient on the first
    attempt returns after 1 invocation and no sleep. *)
Theorem errorHanlder_retry_policy :
  (forall (B : Type) (dbs : DBStorage) (op : handler B) (b : B) (sl : list Z),
    exists r : nat,
      errorHanlder dbs op (mkWorld b sl)
      = (outcome_at op r b,
         mkWorld (state_after op (S r) b)
           (sl ++ delays (duration dbs) (durationPolicy dbs) r)) /\
      (forall k, (k < r)%nat -> transient (outcome_at op k b) = true) /\
      (r <= Z.to_nat (retryCount dbs))%nat /\
      (transient (outcome_at op r b) = false \/ r = Z.to_nat (retryCount dbs)) /\
      (transient (outcome_at op O b) = false -> r = O) /\
      (retryCount dbs <= 0 -> r = O)) /\
  (forall e1 e2 e3 : error,
    transient (Some e1) = true -> transient (Some e2) = true ->
    transient (Some e3) = true ->
    errorHanlder (mkDBStorage 3 1 1)
      (scripted [Some e1; Some e2; Some e3; None]) (mkWorld O [])
    = (None, mkWorld 4%nat [seconds 1; seconds 2; seconds 3]) /\
    seconds 1 + seconds 2 + seconds 3 = seconds (1 + 2 + 3)) /\
  (forall (e : error) (script : list (option error)),
    transient (Some e) = false ->
    errorHanlder (mkDBStorage 3 1 1) (scripted (Some e :: script)) (mkWorld O [])
    = (Some e, mkWorld 1%nat [])).
Proof.
  split; [|split].
  - intros B dbs op b sl. apply errorHanlder_run.
  - intros e1 e2 e3 H1 H2 H3. split; [|reflexivity].
    unfold errorHanlder, call, scripted. cbn -[transient seconds wrap64].
    rewrite H1. change (Z.to_nat 3) with 3%nat.
    cbn -[transient seconds wrap64].
    rewrite H2. cbn -[transient seconds wrap64].
    rewrite H3. reflexivity.
  - intros e script He.
    unfold errorHanlder, call, scripted. cbn -[transient]. by rewrite He.
Qed.

Lemma errorHanlder_retry_policy_witness :
  transient (Some (PgError "08006")) = true /\
  transient (Some (ErrText "syntax error")) = false /\
  errorHanlder (mkDBStorage 3 1 1)
    (scripted [Some (PgError "08006"); Some (PgError "08006");
               Some (Wrapped "exec" (PgError "08001")); None])
    (mkWorld O [])
  = (None, mkWorld 4%nat [1000000000; 2000000000; 3000000000]) /\
  errorHanlder (mkDBStorage 3 1 1)
    (scripted [Some (ErrText "syntax error"); None]) (mkWorld O [])
  = (Some (ErrText "syntax error"), mkWorld 1%nat []).
Proof.
  split; [reflexivity|]. split; [reflexivity|]. split.
  - apply (proj1 (proj2 errorHanlder_retry_policy)); reflexivity.
  - apply (proj2 (proj2 errorHanlder_retry_policy)); reflexivity.
Defined.

Lemma state_after_S {B} (op : handler B) (n : nat) (b : B) :
  state_after op (S n) b = snd (op (state_after op n b)).
Proof.
  revert b. induction n as [|n IH]; intros b; [done|].
  change (state_after op (S (S n)) b) with (state_after op (S n) (snd (op b))).
  by rewrite IH.
Qed.

(** A rule for reasoning about a wrapped operation: [I] holds before
    every attempt, as attempts that fail transiently keep it, and [Q]
    holds of what any attempt returns. *)
Lemma errorHanlder_rule {B} (dbs : DBStorage) (op : handler B)
    (I : B -> Prop) (Q : option error -> B -> Prop) :
  (forall b, I b ->
     Q (fst (op b)) (snd (op b)) /\
     (transient (fst (op b)) = true -> I (snd (op b)))) ->
  forall w, I (backend w) ->
    Q (fst (errorHanlder dbs op w)) (backend (snd (errorHanlder dbs op w))).
Proof.
  intros Hop [b sl] Hb. cbn in Hb.
  destruct (errorHanlder_run dbs op b sl) as (r & Hrun & Hall & _).
  rewrite Hrun. cbn [fst snd backend].
  assert (Hinv : forall k, (k <= r)%nat -> I (state_after op k b)).
  { induction k as [|k IH]; intros Hk; [done|].
    rewrite state_after_S. apply Hop; [apply IH; lia|].
    apply Hall. lia. }
  rewrite state_after_S. apply Hop, Hinv. lia.
Qed.

Lemma errorHanlder_once {B} (dbs : DBStorage) (op : handler B) (w : World B) :
  retryCount dbs <= 0 -> errorHanlder dbs op w = call op w.
Proof.
  intros Hle. unfold errorHanlder. destruct (call op w) as [err w1].
  apply Z.leb_le in Hle. rewrite Hle, orb_true_r. done.
Qed.

(** C3: a store built by [NewDBStorage] has retry count, initial delay
    and delay increment 0, so for every operation the resilience layer
    invokes it exactly once, does not sleep, and returns its error as it
    is. *)
Theorem NewDBStorage_never_retries (w w' : World Conn) (dbs : DBStorage) :
  NewDBStorage w = (Ok dbs, w') ->
  retryCount dbs = 0 /\ duration dbs = 0 /\ durationPolicy dbs = 0 /\
  forall (B : Type) (op : handler B) (wb : World B),
    errorHanlder dbs op wb
    = (fst (op (backend wb)), mkWorld (snd (op (backend wb))) (slept wb)).
Proof.
  unfold NewDBStorage. destruct (createTables _ w) as [[e|] w1]; [done|].
  intros [= <- <-]. repeat split.
  intros B op wb. rewrite errorHanlder_once by (cbn; lia).
  unfold call. by destruct (op (backend wb)).
Qed.

Lemma NewDBStorage_never_retries_witness :
  errorHanlder (mkDBStorage 0 0 0) (scripted [Some (PgError "08006"); None])
    (mkWorld O [])
  = (Some (PgError "08006"), mkWorld 1%nat []).
Proof.
  destruct (NewDBStorage_never_retries fresh_backend
              (snd (NewDBStorage fresh_backend)) (mkDBStorage 0 0 0))
    as (_ & _ & _ & H); [reflexivity|].
  apply (H nat).
Defined.

(** [UpdateByMetrics] on a metric whose value pointer is nil. *)
Lemma UpdateByMetrics_nil_pointer (dbs : DBStorage) (m : Metrics) (w : World Conn) :
  (MType m = "gauge" /\ Value m = None) \/
  (MType m = "counter" /\ Delta m = None) ->
  exists msg, UpdateByMetrics dbs m w = (Err (ErrText msg), w).
Proof.
  unfold UpdateByMetrics, updateCounterByMetrics, updateGaugeByMetrics.
  intros [[-> ->] | [-> ->]]; cbn; eauto.
Qed.

(** C6: a metric whose kind is neither counter nor gauge makes
    [UpdateByMetrics] fail with the unknown-type error, and a counter
    without delta or a gauge without value makes it fail with the
    empty-value error; in each case nothing is sent to the backend, the
    store state is as before, and nothing is slept or retried. *)
Theorem UpdateByMetrics_rejects (dbs : DBStorage) (m : Metrics) (w : World Conn) :
  (MType m <> "counter" -> MType m <> "gauge" ->
   UpdateByMetrics dbs m w = (Err (ErrText ("unknown type " ++ MType m)), w)) /\
  (MType m = "counter" -> Delta m = None ->
   UpdateByMetrics dbs m w = (Err (ErrText "delta is empty"), w)) /\
  (MType m = "gauge" -> Value m = None ->
   UpdateByMetrics dbs m w = (Err (ErrText "value is empty"), w)).
Proof.
  unfold UpdateByMetrics. repeat split.
  - intros Hc Hg. by rewrite !decide_False.
  - intros Hc Hd. rewrite decide_True by done.
    unfold updateCounterByMetrics. by rewrite Hd.
  - intros Hg Hv. rewrite decide_False by (by rewrite Hg).
    rewrite decide_True by done.
    unfold updateGaugeByMetrics. by rewrite Hv.
Qed.

Lemma UpdateByMetrics_rejects_witness :
  UpdateByMetrics (mkDBStorage 3 1 1) (mkMetrics "x" "timer" (Some 1) None)
    ready_backend
  = (Err (ErrText "unknown type timer"), ready_backend) /\
  UpdateByMetrics (mkDBStorage 3 1 1) (mkMetrics "x" "counter" None None)
    ready_backend
  = (Err (ErrText "delta is empty"), ready_backend) /\
  UpdateByMetrics (mkDBStorage 3 1 1) (mkMetrics "x" "gauge" (Some 1) None)
    ready_backend
  = (Err (ErrText "value is empty"), ready_backend).
Proof.
  split; [|split].
  - apply (proj1 (UpdateByMetrics_rejects _ (mkMetrics "x" "timer" (Some 1) None) _));
      discriminate.
  - apply (proj1 (proj2 (UpdateByMetrics_rejects _ (mkMetrics "x" "counter" None None) _)));
      reflexivity.
  - apply (proj2 (proj2 (UpdateByMetrics_rejects _ (mkMetrics "x" "gauge" (Some 1) None) _)));
      reflexivity.
Defined.

(** The metrics whose required value pointer is nil. *)
Lemma queueMetrics_nil_pointer (metrics : list Metrics) (m : Metrics) :
  m ∈ metrics ->
  (MType m = "gauge" /\ Value m = None) \/
  (MType m = "counter" /\ Delta m = None) ->
  forall batch, queueMetrics metrics batch = Panics.
Proof.
  intros Hin Hbad. induction Hin as [m rest | m m' rest Hin IH]; intros batch.
  - cbn. destruct Hbad as [[Hk Hv] | [Hk Hd]].
    + rewrite decide_True by done. by rewrite Hv.
    + rewrite decide_False by (by rewrite Hk). rewrite decide_True by done.
      by rewrite Hd.
  - cbn. repeat case_decide; repeat case_match; auto.
Qed.

(** C10: [Updates] dereferences [val.Value] and [val.Delta] without a nil
    check: every batch that holds a gauge without value or a counter
    without delta makes it panic, nothing being sent, where
    [UpdateByMetrics] returns the empty-value error for the same metric;
    the batch of the single gauge [g] without value is such a batch. *)
Theorem Updates_panics_on_nil (dbs : DBStorage) (metrics : list Metrics)
    (m : Metrics) (w : World Conn) :
  m ∈ metrics ->
  (MType m = "gauge" /\ Value m = None) \/
  (MType m = "counter" /\ Delta m = None) ->
  Updates dbs metrics w = (Panics, w) /\
  (exists msg, UpdateByMetrics dbs m w = (Err (ErrText msg), w)) /\
  Updates dbs [mkMetrics "g" "gauge" None None] w = (Panics, w) /\
  UpdateByMetrics dbs (mkMetrics "g" "gauge" None None) w
  = (Err (ErrText "value is empty"), w).
Proof.
  intros Hin Hbad. split; [|split; [|split]].
  - unfold Updates. by rewrite (queueMetrics_nil_pointer metrics m).
  - by apply UpdateByMetrics_nil_pointer.
  - reflexivity.
  - reflexivity.
Qed.

Lemma Updates_panics_on_nil_witness :
  Updates (mkDBStorage 0 0 0)
    [gauge_update "a" 1.5; mkMetrics "c" "counter" None None] ready_backend
  = (Panics, ready_backend).
Proof.
  apply (proj1 (Updates_panics_on_nil (mkDBStorage 0 0 0)
                  [gauge_update "a" 1.5; mkMetrics "c" "counter" None None]
                  (mkMetrics "c" "counter" None None) ready_backend
                  ltac:(repeat constructor)
                  ltac:(right; split; reflexivity))).
Defined.

(** ** Construction of the store *)

Ltac next_fault :=
  match goal with
  | |- context [head ?fl] => is_var fl; destruct fl as [|[?|] ?]; cbn in *
  | H : context [head ?fl] |- _ => is_var fl; destruct fl as [|[?|] ?]; cbn in *
  end.

Ltac not_issued H :=
  repeat (apply elem_of_cons in H as [H|H]; [discriminate H|]);
  by apply elem_of_nil in H.

Ltac find_check :=
  let i := fresh "i" in
  let Hi := fresh "Hi" in
  intros i Hi;
  do 7 (destruct i as [|i];
        [first [ discriminate Hi
               | exists 1%nat; split; [lia|reflexivity]
               | exists 2%nat; split; [lia|reflexivity]
               | exists 3%nat; split; [lia|reflexivity] ]|]);
  discriminate Hi.

(** The requests of a construction: a relation is created only when it
    is absent, and after its existence has been checked. *)
Lemma NewDBStorage_requests (w : World Conn) :
  exists reqs : list Request,
    issued (backend (snd (NewDBStorage w))) = issued (backend w) ++ reqs /\
    (ReqStmt CreateGauges ∈ reqs -> gauges (tables (backend w)) = None) /\
    (ReqStmt CreateCounters ∈ reqs -> counters (tables (backend w)) = None) /\
    checked_before (ReqStmt (TableExists "gauges")) (ReqStmt CreateGauges) reqs /\
    checked_before (ReqStmt (TableExists "counters")) (ReqStmt CreateCounters) reqs.
Proof.
  destruct w as [[pl [g c] sv fl iss] sl].
  unfold NewDBStorage, createTables, BeginFunc, errorHanlder, call.
  cbn.
  destruct pl, g as [g|], c as [c|]; repeat next_fault;
    rewrite <- ?app_assoc; cbn;
    (eexists; split; [reflexivity|]);
    (split; [intros H; first [done | not_issued H]|]);
    (split; [intros H; first [done | not_issued H]|]);
    (split; find_check).
Qed.

(** A construction that succeeds has had no failing round trip. *)
Lemma NewDBStorage_Ok_no_fault (w w' : World Conn) (dbs : DBStorage) :
  NewDBStorage w = (Ok dbs, w') ->
  forall k, (k < length (issued_since w w'))%nat ->
    mjoin (faults (backend w) !! k) = None.
Proof.
  destruct w as [[pl [g c] sv fl iss] sl].
  unfold NewDBStorage, createTables, BeginFunc, errorHanlder, call, issued_since.
  cbn.
  destruct pl, g as [g|], c as [c|]; repeat next_fault;
    intros [= <- <-]; cbn; rewrite <- ?app_assoc, drop_app_length; cbn;
    intros k Hk;
    do 7 (destruct k as [|k]; [first [reflexivity | cbn in Hk; lia]|]);
    cbn in Hk; lia.
Qed.

(** Construction where both relations exist and no fault is injected. *)
Lemma NewDBStorage_existing (w : World Conn) :
  is_Some (gauges (tables (backend w))) ->
  is_Some (counters (tables (backend w))) ->
  faults (backend w) = [] ->
  NewDBStorage w
  = (Ok (mkDBStorage 0 0 0),
     mkWorld (mkConn (pooled (backend w)) (tables (backend w)) None []
                (issued (backend w) ++
                 [ReqBegin; ReqStmt (TableExists "gauges");
                  ReqStmt (TableExists "counters"); ReqCommit]))
       (slept w)).
Proof.
  destruct w as [[pl [g c] sv fl iss] sl]; cbn.
  intros [g' ->] [c' ->] ->.
  unfold NewDBStorage, createTables, BeginFunc, errorHanlder, call.
  destruct pl; cbn; rewrite <- !app_assoc; reflexivity.
Qed.

(** Construction where neither relation exists and no fault is injected. *)
Lemma NewDBStorage_absent (w : World Conn) :
  gauges (tables (backend w)) = None ->
  counters (tables (backend w)) = None ->
  faults (backend w) = [] ->
  NewDBStorage w
  = (Ok (mkDBStorage 0 0 0),
     mkWorld (mkConn (pooled (backend w)) (mkTables (Some ∅) (Some ∅)) None []
                (issued (backend w) ++
                 [ReqBegin; ReqStmt (TableExists "gauges"); ReqStmt CreateGauges;
                  ReqStmt (TableExists "counters"); ReqStmt CreateCounters;
                  ReqCommit]))
       (slept w)).
Proof.
  destruct w as [[pl [g c] sv fl iss] sl]; cbn.
  intros -> -> ->.
  unfold NewDBStorage, createTables, BeginFunc, errorHanlder, call.
  destruct pl; cbn; rewrite <- !app_assoc; reflexivity.
Qed.

(** C9: [NewDBStorage] checks for each of the two relations whether it
    exists and creates it only if it is absent, the check first; where
    both relations exist and the backend does not fail, it succeeds,
    issues no create statement and leaves the relations as they are;
    where neither exists, it succeeds and both exist afterwards, and a
    second construction then succeeds without a create statement; and it
    succeeds only if none of its round trips, the existence checks and the
    creations among them, has failed. *)
Theorem NewDBStorage_ensures_relations (w : World Conn) :
  (exists reqs : list Request,
     issued (backend (snd (NewDBStorage w))) = issued (backend w) ++ reqs /\
     (ReqStmt CreateGauges ∈ reqs -> gauges (tables (backend w)) = None) /\
     (ReqStmt CreateCounters ∈ reqs -> counters (tables (backend w)) = None) /\
     checked_before (ReqStmt (TableExists "gauges")) (ReqStmt CreateGauges) reqs /\
     checked_before (ReqStmt (TableExists "counters")) (ReqStmt CreateCounters) reqs) /\
  (is_Some (gauges (tables (backend w))) ->
   is_Some (counters (tables (backend w))) ->
   faults (backend w) = [] ->
   exists w', NewDBStorage w = (Ok (mkDBStorage 0 0 0), w') /\
     tables (backend w') = tables (backend w) /\
     issued_since w w'
     = [ReqBegin; ReqStmt (TableExists "gauges");
        ReqStmt (TableExists "counters"); ReqCommit]) /\
  (gauges (tables (backend w)) = None ->
   counters (tables (backend w)) = None ->
   faults (backend w) = [] ->
   exists w1 w2, NewDBStorage w = (Ok (mkDBStorage 0 0 0), w1) /\
     tables (backend w1) = mkTables (Some ∅) (Some ∅) /\
     NewDBStorage w1 = (Ok (mkDBStorage 0 0 0), w2) /\
     tables (backend w2) = tables (backend w1) /\
     (ReqStmt CreateGauges ∉ issued_since w1 w2) /\
     (ReqStmt CreateCounters ∉ issued_since w1 w2)) /\
  (forall k, (k < length (issued_since w (snd (NewDBStorage w))))%nat ->
     is_Some (mjoin (faults (backend w) !! k)) ->
     exists e, fst (NewDBStorage w) = Err (Wrapped "create tables in database" e)).
Proof.
  split; [apply NewDBStorage_requests|]. split; [|split].
  - intros Hg Hc Hf. eexists. split; [by apply NewDBStorage_existing|].
    split; [done|]. unfold issued_since. cbn. by rewrite drop_app_length.
  - intros Hg Hc Hf.
    rewrite (NewDBStorage_absent w Hg Hc Hf).
    eexists. eexists. split; [reflexivity|]. split; [reflexivity|].
    rewrite NewDBStorage_existing by (cbn; eauto).
    split; [reflexivity|]. split; [reflexivity|].
    unfold issued_since. cbn. rewrite drop_app_length.
    split; intros H; not_issued H.
  - intros k Hk [e He].
    destruct (NewDBStorage w) as [[dbs|e'] w'] eqn:Hnew.
    + rewrite (NewDBStorage_Ok_no_fault w w' dbs Hnew k) in He; [done|].
      exact Hk.
    + revert Hnew. unfold NewDBStorage.
      destruct (createTables _ w) as [[e0|] w0]; [|done].
      intros [= <- <-]. by exists e0.
Qed.

Lemma NewDBStorage_ensures_relations_witness :
  exists w1 w2, NewDBStorage fresh_backend = (Ok (mkDBStorage 0 0 0), w1) /\
    tables (backend w1) = mkTables (Some ∅) (Some ∅) /\
    NewDBStorage w1 = (Ok (mkDBStorage 0 0 0), w2) /\
    tables (backend w2) = tables (backend w1) /\
    (ReqStmt CreateGauges ∉ issued_since w1 w2) /\
    (ReqStmt CreateCounters ∉ issued_since w1 w2).
Proof.
  apply (proj1 (proj2 (proj2 (NewDBStorage_ensures_relations fresh_backend))));
    reflexivity.
Defined.

(** ** Batches *)

Lemma sql_exec_not_transient (s : Stmt) (t : Tables) (e : error) :
  sql_exec s t = Err e -> transient (Some e) = false.
Proof.
  destruct s; cbn -[transient];
    unfold sql_create_gauges, sql_create_counters, sql_upsert_gauge,
      sql_upsert_counter, sql_select_gauge, sql_select_counter;
    repeat case_match; intros ?; simplify_eq; reflexivity.
Qed.

Lemma sql_exec_all_not_transient (b : list Stmt) (t t' : Tables) (e : error) :
  sql_exec_all b t = (Some e, t') -> transient (Some e) = false.
Proof.
  revert t. induction b as [|s b IH]; intros t; cbn; [done|].
  destruct (sql_exec s t) as [t1|e1] eqn:Hs; [apply IH|].
  intros [= <- <-]. by apply (sql_exec_not_transient s t).
Qed.

Lemma sql_exec_all_det (batch : list Stmt) (t0 t t' : Tables) (e : error) :
  sql_exec_all batch t0 = (None, t) -> sql_exec_all batch t0 = (Some e, t') -> False.
Proof. intros ->. done. Qed.

(** One attempt to send a batch after a [BEGIN] at [t0]: an attempt that
    may be retried has changed nothing, and one that succeeds has run
    every statement. *)
Lemma SendBatch_Close_attempt (batch : list Stmt) (t0 : Tables) (pl : bool)
    (c : Conn) :
  let open := if pl then None else Some t0 in
  tables c = t0 /\ saved c = open /\ pooled c = pl ->
  (saved (snd (SendBatch_Close batch c)) = open /\
   pooled (snd (SendBatch_Close batch c)) = pl /\
   (fst (SendBatch_Close batch c) = None ->
    sql_exec_all batch t0 = (None, tables (snd (SendBatch_Close batch c)))) /\
   (pl = true -> fst (SendBatch_Close batch c) <> None ->
    tables (snd (SendBatch_Close batch c)) = t0)) /\
  (transient (fst (SendBatch_Close batch c)) = true ->
   tables (snd (SendBatch_Close batch c)) = t0 /\
   saved (snd (SendBatch_Close batch c)) = open /\
   pooled (snd (SendBatch_Close batch c)) = pl).
Proof.
  intros open (Ht & Hs & Hp). subst open.
  unfold SendBatch_Close, round_trip.
  destruct (mjoin (head (faults c))) as [e|]; cbn -[transient];
    [by rewrite Hs|].
  rewrite Ht, Hs.
  destruct (sql_exec_all batch t0) as [[e|] t'] eqn:Hrun;
    destruct pl; cbn -[transient];
    rewrite ?(sql_exec_all_not_transient _ _ _ _ Hrun), ?Hs; done.
Qed.

(** A batch sent inside [pgx.BeginFunc], from the relations [t0]. *)
Lemma BeginFunc_batch (dbs : DBStorage) (batch : list Stmt) (w : World Conn) :
  saved (backend w) = None ->
  let r := BeginFunc (errorHanlder dbs (SendBatch_Close batch)) w in
  let t0 := tables (backend w) in
  let t' := tables (backend (snd r)) in
  saved (backend (snd r)) = None /\
  (fst r = None -> sql_exec_all batch t0 = (None, t')) /\
  (forall e t, sql_exec_all batch t0 = (Some e, t) -> fst r <> None /\ t' = t0) /\
  (pooled (backend w) = false -> fst r <> None -> t' = t0) /\
  (t' = t0 \/ sql_exec_all batch t0 = (None, t')).
Proof.
  destruct w as [[pl t0 sv fl iss] sl]. cbn. intros ->.
  unfold BeginFunc, call, conn_Begin, round_trip. cbn.
  destruct (mjoin (head fl)) as [e|]; cbn.
  { split; [done|]. split; [done|]. split; [done|]. split; [done|]. by left. }
  set (c1 := mkConn pl t0 None (tail fl) (iss ++ [ReqBegin])).
  set (w1 := mkWorld (if pl then c1 else set_saved (Some t0) c1) sl).
  replace (let '(a, b) := if pl then _ else _ in (a, mkWorld b sl))
    with (None (A:=error), w1) by (subst w1 c1; by destruct pl).
  assert (Hw1 : tables (backend w1) = t0 /\
                saved (backend w1) = (if pl then None else Some t0) /\
                pooled (backend w1) = pl).
  { subst w1 c1. by destruct pl. }
  pose proof (errorHanlder_rule dbs (SendBatch_Close batch)
    (fun c => tables c = t0 /\ saved c = (if pl then None else Some t0) /\
              pooled c = pl)
    (fun e c => saved c = (if pl then None else Some t0) /\ pooled c = pl /\
                (e = None -> sql_exec_all batch t0 = (None, tables c)) /\
                (pl = true -> e <> None -> tables c = t0))
    (SendBatch_Close_attempt batch t0 pl) w1 Hw1) as HQ.
  destruct (errorHanlder dbs (SendBatch_Close batch) w1) as [[e|] w2];
    cbn in HQ; destruct HQ as (Hsaved & Hpool & Hrun & Hkeep).
  - unfold tx_Rollback, round_trip, undo. cbn. rewrite Hsaved.
    assert (Ht : default (tables (backend w2)) (if pl then None else Some t0) = t0).
    { destruct pl; cbn; [by apply Hkeep|done]. }
    rewrite Ht. split; [done|]. split; [done|]. split; [done|].
    split; [done|]. by left.
  - specialize (Hrun eq_refl).
    unfold tx_Commit, round_trip, undo.
    destruct (mjoin (head (faults (backend w2)))) as [e|]; cbn.
    + rewrite Hsaved. split; [done|]. split; [done|].
      split; [intros e' t He'; by destruct (sql_exec_all_det _ _ _ _ _ Hrun He')|].
      destruct pl; cbn; [|split; [done|by left]].
      split; [done|]. by right.
    + split; [done|]. split; [done|].
      split; [intros e' t He'; by destruct (sql_exec_all_det _ _ _ _ _ Hrun He')|].
      split; [done|]. by right.
Qed.

(** C1: a batch is applied as a whole or not at all.  When a metric lacks
    its value [Updates] panics and has sent nothing.  Otherwise it
    returns, and the relations are then those before the call or those
    after every queued statement has run, in order: the latter when it
    returns nil, the former when a statement of the batch fails, in which
    case it returns an error, and, on a single connection, whenever it
    returns an error.  No transaction is left open. *)
Theorem Updates_all_or_nothing (dbs : DBStorage) (metrics : list Metrics)
    (w : World Conn) :
  saved (backend w) = None ->
  let r := Updates dbs metrics w in
  let t0 := tables (backend w) in
  let t' := tables (backend (snd r)) in
  saved (backend (snd r)) = None /\
  match queueMetrics metrics [] with
  | Panics => r = (Panics, w)
  | Returns batch =>
      exists err, fst r = Returns err /\
        (err = None -> sql_exec_all batch t0 = (None, t')) /\
        (forall e t, sql_exec_all batch t0 = (Some e, t) -> err <> None /\ t' = t0) /\
        (pooled (backend w) = false -> err <> None -> t' = t0) /\
        (t' = t0 \/ sql_exec_all batch t0 = (None, t'))
  end.
Proof.
  intros Hs. cbn zeta. unfold Updates.
  destruct (queueMetrics metrics []) as [batch|]; [|done].
  pose proof (BeginFunc_batch dbs batch w Hs) as (Hsaved & Hnil & Hfail & Hone & Hany).
  destruct (BeginFunc _ w) as [[e|] w1]; cbn in *.
  - split; [done|]. eexists. split; [reflexivity|].
    split; [done|]. split; [|split; [|done]].
    + intros e' t He'. split; [done|]. by apply (Hfail e' t).
    + intros Hp _. by apply Hone.
  - split; [done|]. exists None. split; [reflexivity|].
    split; [done|]. split; [|split; [|done]].
    + intros e' t He'. by destruct (Hfail e' t He').
    + done.
Qed.

Lemma Updates_all_or_nothing_witness :
  fst (Updates (mkDBStorage 3 1 1)
         [gauge_update "a" 1.5; counter_update "c" 2147483647;
          counter_update "c" 1] ready_backend)
  = Returns (Some (Wrapped "send batch" numeric_value_out_of_range)) /\
  tables (backend (snd (Updates (mkDBStorage 3 1 1)
         [gauge_update "a" 1.5; counter_update "c" 2147483647;
          counter_update "c" 1] ready_backend)))
  = tables (backend ready_backend).
Proof.
  split; [reflexivity|].
  destruct (Updates_all_or_nothing (mkDBStorage 3 1 1)
         [gauge_update "a" 1.5; counter_update "c" 2147483647;
          counter_update "c" 1] ready_backend eq_refl)
    as (_ & err & _ & _ & Hfail & _).
  apply (Hfail numeric_value_out_of_range
           (mkTables (Some {["a" := 1.5%float]}) (Some {["c" := 2147483647]}))).
  reflexivity.
Defined.

(** ** Single updates and reads *)

(** One [QueryRow(...).Scan(&x)] under the resilience layer, from the
    relations [t0]: on success the statement has run exactly once and [x]
    holds its row; on failure the relations are as before. *)
Lemma errorHanlder_query {A} (dbs : DBStorage) (s : Stmt)
    (sem : Tables -> result (A * Tables)) (x0 : A) (w : World Conn) :
  let r := errorHanlder dbs (scan_into (QueryRow_Scan s sem)) (bind_var x0 w) in
  saved (backend (conn_of (snd r))) = saved (backend w) /\
  match fst r with
  | None =>
      sem (tables (backend w)) = Ok (var_of (snd r), tables (backend (conn_of (snd r))))
  | Some _ => tables (backend (conn_of (snd r))) = tables (backend w)
  end.
Proof.
  set (t0 := tables (backend w)). set (s0 := saved (backend w)).
  pose proof (errorHanlder_rule dbs (scan_into (QueryRow_Scan s sem))
    (fun b => tables (fst b) = t0 /\ saved (fst b) = s0)
    (fun e b => saved (fst b) = s0 /\
                match e with
                | None => sem t0 = Ok (snd b, tables (fst b))
                | Some _ => tables (fst b) = t0
                end)) as Hrule.
  cbn zeta. apply Hrule; [|done].
  intros [c x] [Ht Hs]. cbn in Ht, Hs.
  unfold scan_into, QueryRow_Scan, round_trip.
  destruct (mjoin (head (faults c))) as [e|]; cbn -[transient]; [done|].
  rewrite Ht.
  destruct (sem t0) as [[a t']|e]; cbn -[transient]; done.
Qed.

Lemma sql_upsert_counter_Ok (name : string) (d new : Z) (t t' : Tables) :
  sql_upsert_counter name d t = Ok (new, t') ->
  new = counter_value name t + d /\
  counter_row name t' = Some new /\
  - 2 ^ 31 <= new <= 2 ^ 31 - 1.
Proof.
  unfold sql_upsert_counter, counter_value, counter_row.
  destruct (counters t) as [c|]; [|done]. cbn.
  destruct (in_int4 d && in_int4 _) eqn:Hrange; [|done].
  intros [= <- <-]. cbn. rewrite lookup_insert_eq.
  apply andb_true_iff in Hrange as [_ Hnew].
  unfold in_int4 in Hnew. apply andb_true_iff in Hnew as [H1 H2].
  apply Z.leb_le in H1, H2.
  destruct (c !! name); cbn; repeat split; lia.
Qed.

Lemma sql_upsert_gauge_Ok (name : string) (v v' : float) (t t' : Tables) :
  sql_upsert_gauge name v t = Ok (v', t') ->
  v' = v /\ gauge_row name t' = Some v.
Proof.
  unfold sql_upsert_gauge, gauge_row.
  destruct (gauges t) as [g|]; [|done].
  intros [= <- <-]. cbn. by rewrite lookup_insert_eq.
Qed.

(** A Counter update that succeeds. *)
Lemma UpdateByMetrics_counter (dbs : DBStorage) (name : string) (d : Z)
    (w : World Conn) :
  let r := UpdateByMetrics dbs (counter_update name d) w in
  succeeded (fst r) ->
  fst r = Ok (NewMetricsForCounter name (counter_value name (tables (backend w)) + d)) /\
  counter_row name (tables (backend (snd r)))
  = Some (counter_value name (tables (backend w)) + d).
Proof.
  unfold UpdateByMetrics, counter_update. cbn.
  pose proof (errorHanlder_query dbs (UpsertCounter name d)
                (sql_upsert_counter name d) 0 w) as [_ Hq].
  unfold query_upsert_counter.
  destruct (errorHanlder _ _ _) as [[e|] w1]; cbn in *; [done|].
  intros _. apply sql_upsert_counter_Ok in Hq as (-> & Hrow & _).
  done.
Qed.

(** A Gauge update that succeeds. *)
Lemma UpdateByMetrics_gauge (dbs : DBStorage) (name : string) (v : float)
    (w : World Conn) :
  let r := UpdateByMetrics dbs (gauge_update name v) w in
  succeeded (fst r) ->
  fst r = Ok (NewMetricsForGauge name v) /\
  gauge_row name (tables (backend (snd r))) = Some v.
Proof.
  unfold UpdateByMetrics, gauge_update. cbn.
  pose proof (errorHanlder_query dbs (UpsertGauge name v)
                (sql_upsert_gauge name v) 0%float w) as [_ Hq].
  unfold query_upsert_gauge.
  destruct (errorHanlder _ _ _) as [[e|] w1]; cbn in *; [done|].
  intros _. apply sql_upsert_gauge_Ok in Hq as (-> & Hrow).
  done.
Qed.

(** A read that succeeds returns the stored value. *)
Lemma ValueByMetrics_counter (dbs : DBStorage) (name : string) (w : World Conn)
    (m : Metrics) :
  fst (ValueByMetrics dbs (mkMetrics name "counter" None None) w) = Ok m ->
  exists v, counter_row name (tables (backend w)) = Some v /\
    m = NewMetricsForCounter name v.
Proof.
  unfold ValueByMetrics. cbn. unfold valueCounterByMetrics.
  pose proof (errorHanlder_query dbs (SelectCounter name)
    (fun t => match sql_select_counter name t with
              | Ok v => Ok (v, t)
              | Err e => Err e
              end) 0 w) as [_ Hq].
  unfold query_select_counter.
  destruct (errorHanlder _ _ _) as [[e|] w1]; cbn in *; [done|].
  intros [= <-]. exists (var_of w1). split; [|done].
  unfold sql_select_counter, counter_row in *.
  destruct (counters (tables (backend w))) as [c|]; [|done]. cbn.
  destruct (c !! name); by simplify_eq.
Qed.

Lemma ValueByMetrics_gauge (dbs : DBStorage) (name : string) (w : World Conn)
    (m : Metrics) :
  fst (ValueByMetrics dbs (mkMetrics name "gauge" None None) w) = Ok m ->
  exists v, gauge_row name (tables (backend w)) = Some v /\
    m = NewMetricsForGauge name v.
Proof.
  unfold ValueByMetrics. cbn. unfold valueGaugeByMetrics.
  pose proof (errorHanlder_query dbs (SelectGauge name)
    (fun t => match sql_select_gauge name t with
              | Ok v => Ok (v, t)
              | Err e => Err e
              end) 0%float w) as [_ Hq].
  unfold query_select_gauge.
  destruct (errorHanlder _ _ _) as [[e|] w1]; cbn in *; [done|].
  intros [= <-]. exists (var_of w1). split; [|done].
  unfold sql_select_gauge, gauge_row in *.
  destruct (gauges (tables (backend w))) as [g|]; [|done]. cbn.
  destruct (g !! name); by simplify_eq.
Qed.

(** Without injected faults an update that the relation can take
    succeeds, at the first attempt. *)
Lemma UpdateByMetrics_counter_accepted (dbs : DBStorage) (name : string)
    (d : Z) (w : World Conn) :
  faults (backend w) = [] ->
  is_Some (counters (tables (backend w))) ->
  in_int4 d = true ->
  in_int4 (counter_value name (tables (backend w)) + d) = true ->
  let r := UpdateByMetrics dbs (counter_update name d) w in
  succeeded (fst r) /\ faults (backend (snd r)) = [] /\
  is_Some (counters (tables (backend (snd r)))).
Proof.
  destruct w as [[pl [g c] sv fl iss] sl]. cbn.
  intros -> [c' ->] Hd Hnew.
  unfold UpdateByMetrics, counter_update. cbn [MType ID Delta].
  rewrite decide_True by done.
  unfold updateCounterByMetrics, errorHanlder, call,
    query_upsert_counter, scan_into, QueryRow_Scan, round_trip,
    sql_upsert_counter, counter_value, counter_row in *.
  cbn in *. rewrite Hd.
  destruct (c' !! name) as [old|]; cbn in *.
  - rewrite Hnew. cbn. eauto.
  - rewrite Z.add_0_l in Hnew. rewrite Hnew. cbn. eauto.
Qed.

Lemma UpdateByMetrics_gauge_accepted (dbs : DBStorage) (name : string)
    (v : float) (w : World Conn) :
  faults (backend w) = [] ->
  is_Some (gauges (tables (backend w))) ->
  let r := UpdateByMetrics dbs (gauge_update name v) w in
  succeeded (fst r) /\ faults (backend (snd r)) = [] /\
  is_Some (gauges (tables (backend (snd r)))).
Proof.
  destruct w as [[pl [g c] sv fl iss] sl]. cbn.
  intros -> [g' ->].
  unfold UpdateByMetrics, gauge_update. cbn [MType ID Value].
  rewrite decide_False by done. rewrite decide_True by done.
  unfold updateGaugeByMetrics, errorHanlder, call,
    query_upsert_gauge, scan_into, QueryRow_Scan, round_trip,
    sql_upsert_gauge. cbn. eauto.
Qed.

(** ** Sequences of updates *)

Lemma total_Permutation (ds ds' : list Z) :
  Permutation ds ds' -> total ds = total ds'.
Proof.
  unfold total. induction 1; cbn in *; lia.
Qed.

Lemma updateAll_counters (dbs : DBStorage) (name : string) (ds : list Z) :
  forall w : World Conn,
  let run := updateAll dbs (counter_update name <$> ds) w in
  let base := counter_value name (tables (backend w)) in
  Forall succeeded (fst run) ->
  fst run
  = (fun k => Ok (NewMetricsForCounter name (base + total (take (S k) ds)))) <$>
    seq 0 (length ds) /\
  counter_value name (tables (backend (snd run))) = base + total ds /\
  (ds <> [] -> counter_row name (tables (backend (snd run))) = Some (base + total ds)).
Proof.
  induction ds as [|d ds IH]; intros w; cbn zeta.
  - cbn. intros _. split; [done|]. split; [lia|done].
  - cbn [fmap list_fmap updateAll].
    pose proof (UpdateByMetrics_counter dbs name d w) as Hone. cbn zeta in Hone.
    destruct (UpdateByMetrics dbs (counter_update name d) w) as [r w1].
    specialize (IH w1). cbn zeta in IH.
    destruct (updateAll dbs (counter_update name <$> ds) w1) as [rs w2] eqn:Hrest.
    cbn [fst snd] in *.
    intros Hall. apply Forall_cons in Hall as [Hr Hrs].
    destruct (Hone Hr) as [-> Hrow]. destruct (IH Hrs) as (-> & Hval & Hlast).
    assert (Hbase : counter_value name (tables (backend w1))
                    = counter_value name (tables (backend w)) + d).
    { unfold counter_value at 1. by rewrite Hrow. }
    rewrite Hbase in *.
    split; [|split].
    + cbn [length seq fmap list_fmap]. f_equal.
      * cbn. do 2 f_equal. rewrite take_0. unfold total. cbn. lia.
      * rewrite <- seq_shift, <- list_fmap_compose.
        apply list_fmap_ext. intros _ k _. cbn. do 2 f_equal.
        unfold total. cbn. lia.
    + rewrite Hval. unfold total. cbn. lia.
    + intros _. destruct ds as [|d' ds'].
      * cbn in Hrest. simplify_eq.
        rewrite Hrow. f_equal. unfold total. cbn. lia.
      * rewrite Hlast by done. f_equal. unfold total. cbn. lia.
Qed.

Lemma updateAll_counters_accepted (dbs : DBStorage) (name : string)
    (ds : list Z) :
  forall w : World Conn,
  faults (backend w) = [] ->
  is_Some (counters (tables (backend w))) ->
  fits_counter (counter_value name (tables (backend w))) ds ->
  Forall succeeded (fst (updateAll dbs (counter_update name <$> ds) w)).
Proof.
  induction ds as [|d ds IH]; intros w Hf Hc Hfit; [by constructor|].
  cbn [fmap list_fmap updateAll].
  destruct (Hfit O d eq_refl) as [Hd Hnew].
  replace (total (take 1 (d :: ds))) with d in Hnew
    by (unfold total; cbn; rewrite take_0; cbn; lia).
  pose proof (UpdateByMetrics_counter_accepted dbs name d w Hf Hc Hd Hnew)
    as (Hok & Hf1 & Hc1).
  pose proof (UpdateByMetrics_counter dbs name d w Hok) as [_ Hrow].
  destruct (UpdateByMetrics dbs (counter_update name d) w) as [r w1].
  cbn [fst snd] in *.
  specialize (IH w1 Hf1 Hc1).
  destruct (updateAll dbs (counter_update name <$> ds) w1) as [rs w2].
  cbn [fst snd] in *. constructor; [done|]. apply IH.
  intros k d' Hk. destruct (Hfit (S k) d' Hk) as [Hd' Hnew'].
  split; [done|].
  assert (Hbase : counter_value name (tables (backend w1))
                  = counter_value name (tables (backend w)) + d).
  { unfold counter_value at 1. by rewrite Hrow. }
  rewrite Hbase.
  replace (counter_value name (tables (backend w)) + d + total (take (S k) ds))
    with (counter_value name (tables (backend w)) + total (take (S (S k)) (d :: ds)));
    [done|].
  unfold total. cbn. lia.
Qed.

(** C4: Counter updates of one name accumulate.  When the updates with
    deltas [ds] have all succeeded, update number [k] has returned the
    value before the run (0 when the name is absent) plus the first [k]
    deltas, the stored value is the value before plus the sum of [ds],
    a read that succeeds returns it, and any other order of the same
    deltas leaves the same stored value.  They all succeed when the
    relation exists, no fault is injected and the values fit the column.
    On empty relations, updating "hits" by 5 and by 7 returns 5 and 12,
    and the read returns 12. *)
Theorem counter_updates_accumulate (dbs : DBStorage) (name : string)
    (ds : list Z) (w : World Conn) :
  let run := updateAll dbs (counter_update name <$> ds) w in
  let base := counter_value name (tables (backend w)) in
  (Forall succeeded (fst run) ->
   fst run
   = (fun k => Ok (NewMetricsForCounter name (base + total (take (S k) ds)))) <$>
     seq 0 (length ds) /\
   counter_value name (tables (backend (snd run))) = base + total ds /\
   (ds <> [] ->
    counter_row name (tables (backend (snd run))) = Some (base + total ds) /\
    forall dbs' m,
      fst (ValueByMetrics dbs' (mkMetrics name "counter" None None) (snd run)) = Ok m ->
      m = NewMetricsForCounter name (base + total ds)) /\
   (forall dbs' ds' w',
      Permutation ds ds' ->
      counter_value name (tables (backend w')) = base ->
      Forall succeeded (fst (updateAll dbs' (counter_update name <$> ds') w')) ->
      counter_value name
        (tables (backend (snd (updateAll dbs' (counter_update name <$> ds') w'))))
      = counter_value name (tables (backend (snd run))))) /\
  (faults (backend w) = [] -> is_Some (counters (tables (backend w))) ->
   fits_counter base ds -> Forall succeeded (fst run)) /\
  (let hits := updateAll (mkDBStorage 0 0 0)
                 [counter_update "hits" 5; counter_update "hits" 7] ready_backend in
   fst hits = [Ok (NewMetricsForCounter "hits" 5); Ok (NewMetricsForCounter "hits" 12)] /\
   fst (ValueByMetrics (mkDBStorage 0 0 0) (mkMetrics "hits" "counter" None None)
          (snd hits))
   = Ok (NewMetricsForCounter "hits" 12)).
Proof.
  cbn zeta. split; [|split; [apply updateAll_counters_accepted|split; reflexivity]].
  intros Hall.
  destruct (updateAll_counters dbs name ds w Hall) as (Hrs & Hval & Hrow).
  split; [done|]. split; [done|]. split.
  - intros Hne. split; [by apply Hrow|].
    intros dbs' m Hm. apply ValueByMetrics_counter in Hm as (v & Hv & ->).
    rewrite Hrow in Hv by done. by simplify_eq.
  - intros dbs' ds' w' Hperm Hbase Hall'.
    destruct (updateAll_counters dbs' name ds' w' Hall') as (_ & Hval' & _).
    rewrite Hval', Hval, Hbase. f_equal. symmetry. by apply total_Permutation.
Qed.

Lemma counter_updates_accumulate_witness :
  counter_value "hits"
    (tables (backend (snd (updateAll (mkDBStorage 3 1 1)
                             (counter_update "hits" <$> [5; 7]) ready_backend))))
  = 0 + total [5; 7].
Proof.
  apply (proj1 (proj2 (proj1 (counter_updates_accumulate (mkDBStorage 3 1 1)
                                "hits" [5; 7] ready_backend)
                         ltac:(repeat constructor)))).
Defined.

(** The claim C4 as it is worded fails: it speaks of every sequence of
    deltas, and the column [counters.Delta] is an [INTEGER] where a delta
    is an [int64].  On empty relations, "hits" updated by 2147483647 and
    then by 1 is left at 2147483647, the second update being refused, so
    the stored value is not the sum; the same three deltas in two orders
    leave two different values; and a single delta of 3000000000 is
    refused. *)
Lemma counter_updates_leave_the_sum :
  let store := mkDBStorage 0 0 0 in
  let stored ds :=
    counter_value "hits"
      (tables (backend (snd (updateAll store (counter_update "hits" <$> ds)
                               ready_backend)))) in
  (stored [2147483647; 1] = 2147483647 /\ total [2147483647; 1] = 2147483648) /\
  (exists e,
     fst (updateAll store (counter_update "hits" <$> [2147483647; 1]) ready_backend)
     = [Ok (NewMetricsForCounter "hits" 2147483647); Err e]) /\
  (Permutation [2147483647; 1; -1] [2147483647; -1; 1] /\
   stored [2147483647; 1; -1] = 2147483646 /\
   stored [2147483647; -1; 1] = 2147483647) /\
  (exists e,
     fst (updateAll store [counter_update "hits" 3000000000] ready_backend) = [Err e]) /\
  ~ (forall ds, stored ds = total ds).
Proof.
  cbn zeta.
  assert (H1 : counter_value "hits"
      (tables (backend (snd (updateAll (mkDBStorage 0 0 0)
         (counter_update "hits" <$> [2147483647; 1]) ready_backend)))) = 2147483647)
    by (vm_compute; reflexivity).
  split; [split; [exact H1|reflexivity]|].
  split; [eexists; vm_compute; reflexivity|].
  split.
  { split; [|split; vm_compute; reflexivity].
    apply perm_skip, perm_swap. }
  split; [eexists; vm_compute; reflexivity|].
  intros Hall. specialize (Hall [2147483647; 1]). rewrite H1 in Hall.
  discriminate Hall.
Qed.

Lemma updateAll_gauges (dbs : DBStorage) (name : string) (vs : list float) :
  forall w : World Conn,
  let run := updateAll dbs (gauge_update name <$> vs) w in
  Forall succeeded (fst run) ->
  fst run = (fun v => Ok (NewMetricsForGauge name v)) <$> vs /\
  (forall v, last vs = Some v ->
     gauge_row name (tables (backend (snd run))) = Some v).
Proof.
  induction vs as [|v vs IH]; intros w; cbn zeta.
  - cbn. intros _. split; [done|]. intros v. done.
  - cbn [fmap list_fmap updateAll].
    pose proof (UpdateByMetrics_gauge dbs name v w) as Hone. cbn zeta in Hone.
    destruct (UpdateByMetrics dbs (gauge_update name v) w) as [r w1].
    specialize (IH w1). cbn zeta in IH.
    destruct (updateAll dbs (gauge_update name <$> vs) w1) as [rs w2] eqn:Hrest.
    cbn [fst snd] in *.
    intros Hall. apply Forall_cons in Hall as [Hr Hrs].
    destruct (Hone Hr) as [-> Hrow]. destruct (IH Hrs) as (-> & Hlast).
    split; [done|].
    intros v' Hv'. destruct vs as [|v2 vs].
    + cbn in Hrest, Hv'. by simplify_eq.
    + apply Hlast. by rewrite last_cons_cons in Hv'.
Qed.

Lemma updateAll_gauges_accepted (dbs : DBStorage) (name : string)
    (vs : list float) :
  forall w : World Conn,
  faults (backend w) = [] ->
  is_Some (gauges (tables (backend w))) ->
  Forall succeeded (fst (updateAll dbs (gauge_update name <$> vs) w)).
Proof.
  induction vs as [|v vs IH]; intros w Hf Hg; [by constructor|].
  cbn [fmap list_fmap updateAll].
  pose proof (UpdateByMetrics_gauge_accepted dbs name v w Hf Hg)
    as (Hok & Hf1 & Hg1).
  destruct (UpdateByMetrics dbs (gauge_update name v) w) as [r w1].
  cbn [fst snd] in *.
  specialize (IH w1 Hf1 Hg1).
  destruct (updateAll dbs (gauge_update name <$> vs) w1) as [rs w2].
  cbn [fst snd] in *. by constructor.
Qed.

(** C5: Gauge updates of one name replace.  An update that succeeds
    returns its value and leaves it stored, whatever was stored before;
    when the updates with values [vs] have all succeeded, each has
    returned its own value, the stored value is the last of [vs], and a
    read that succeeds returns it.  They all succeed when the relation
    exists and no fault is injected.  On empty relations, updating "temp"
    to 3.5 and to 9.1 and reading it returns 9.1. *)
Theorem gauge_updates_replace (dbs : DBStorage) (name : string)
    (vs : list float) (w : World Conn) :
  let run := updateAll dbs (gauge_update name <$> vs) w in
  (forall v,
     succeeded (fst (UpdateByMetrics dbs (gauge_update name v) w)) ->
     fst (UpdateByMetrics dbs (gauge_update name v) w)
     = Ok (NewMetricsForGauge name v) /\
     gauge_row name (tables (backend (snd (UpdateByMetrics dbs (gauge_update name v) w))))
     = Some v) /\
  (Forall succeeded (fst run) ->
   fst run = (fun v => Ok (NewMetricsForGauge name v)) <$> vs /\
   forall v, last vs = Some v ->
     gauge_row name (tables (backend (snd run))) = Some v /\
     forall dbs' m,
       fst (ValueByMetrics dbs' (mkMetrics name "gauge" None None) (snd run)) = Ok m ->
       m = NewMetricsForGauge name v) /\
  (faults (backend w) = [] -> is_Some (gauges (tables (backend w))) ->
   Forall succeeded (fst run)) /\
  (let temp := updateAll (mkDBStorage 0 0 0)
                 [gauge_update "temp" 3.5; gauge_update "temp" 9.1] ready_backend in
   fst temp = [Ok (NewMetricsForGauge "temp" 3.5); Ok (NewMetricsForGauge "temp" 9.1)] /\
   fst (ValueByMetrics (mkDBStorage 0 0 0) (mkMetrics "temp" "gauge" None None)
          (snd temp))
   = Ok (NewMetricsForGauge "temp" 9.1)).
Proof.
  cbn zeta.
  split; [|split; [|split; [apply updateAll_gauges_accepted|split; reflexivity]]].
  - intros v. apply (UpdateByMetrics_gauge dbs name v w).
  - intros Hall.
    destruct (updateAll_gauges dbs name vs w Hall) as (Hrs & Hlast).
    split; [done|]. intros v Hv. split; [by apply Hlast|].
    intros dbs' m Hm. apply ValueByMetrics_gauge in Hm as (v' & Hv' & ->).
    rewrite (Hlast v Hv) in Hv'. by simplify_eq.
Qed.

Lemma gauge_updates_replace_witness :
  gauge_row "temp"
    (tables (backend (snd (updateAll (mkDBStorage 3 1 1)
                             (gauge_update "temp" <$> [3.5; 9.1]%float)
                             ready_backend))))
  = Some 9.1%float.
Proof.
  apply (proj2 (proj1 (proj2 (gauge_updates_replace (mkDBStorage 3 1 1)
                                "temp" [3.5; 9.1]%float ready_backend))
                  ltac:(repeat constructor)) 9.1%float eq_refl).
Defined.

(** ** The agent *)

Lemma batch_metrics_elem (stats : gmap string float) (m : Metrics) :
  m ∈ batch_metrics stats <->
  exists k v, stats !! k = Some v /\ m = NewMetricsForGauge k v.
Proof.
  unfold batch_metrics. rewrite list_elem_of_fmap. split.
  - intros ([k v] & -> & Hkv). apply elem_of_map_to_list in Hkv. by exists k, v.
  - intros (k & v & Hkv & ->). exists (k, v). split; [done|].
    by apply elem_of_map_to_list.
Qed.

Lemma batch_metrics_gauges (stats : gmap string float) (m : Metrics) :
  m ∈ batch_metrics stats -> MType m = "gauge".
Proof.
  intros (k & v & _ & ->)%batch_metrics_elem. done.
Qed.


(** What a reporter tick pushes. *)
Lemma sendReport_pushes {MemStats} (G : MemStats -> gmap string float)
    (a : Agent MemStats) (r : float) (t : Transport) (l : list LogEntry) :
  pushes (fst (sendReport G a r (t, l)))
  = pushes t ++ [PushBatch (<["RandomValue" := r]> (G (ms a)));
                 PushCounter "PollCount" (pollCount a)].
Proof.
  unfold sendReport, push. cbn. by rewrite <- app_assoc.
Qed.



Lemma sendReport_logs {MemStats} (G : MemStats -> gmap string float)
    (a : Agent MemStats) (r : float) (t : Transport) (l : list LogEntry) :
  (forall e, mjoin (head (net_faults t)) = Some e ->
     LogWarn "Push memstats" None e ∈ snd (sendReport G a r (t, l))) /\
  (forall e, mjoin (head (tail (net_faults t))) = Some e ->
     LogWarn "Error on sending poll count" (Some (pollCount a)) e
     ∈ snd (sendReport G a r (t, l))).
Proof.
  unfold sendReport, push. cbn. split; intros e He; rewrite He.
  - destruct (mjoin (head (tail (net_faults t))));
      rewrite ?elem_of_app, !list_elem_of_singleton; auto.
  - rewrite elem_of_app, list_elem_of_singleton. auto.
Qed.

Lemma step_no_task_failed {MemStats} (G : MemStats -> gmap string float)
    (ev : Event MemStats) (st st' : RunState MemStats) :
  no_task_failed st -> step G ev st = Some st' -> no_task_failed st'.
Proof.
  intros (Heg & Hrep & Hsam). unfold step, egCtxDone, eg_returned.
  rewrite Heg. cbn.
  destruct ev, (reporter st) eqn:Hr, (sampler st) eqn:Hs,
    (ctxDone st) eqn:Hc; cbn;
    intros ?; simplify_eq; unfold no_task_failed; cbn;
    rewrite ?Hr, ?Hs, ?Hc; (split; [done|]); split;
    intros err' Herr; simplify_eq;
    first [ done | by apply Hrep | by apply Hsam
          | by destruct (Hrep _ eq_refl) | by destruct (Hsam _ eq_refl) ].
Qed.

Lemma run_no_task_failed {MemStats} (G : MemStats -> gmap string float)
    (evs : list (Event MemStats)) :
  forall st st' : RunState MemStats,
  no_task_failed st -> run G evs st = Some st' -> no_task_failed st'.
Proof.
  induction evs as [|ev evs IH]; intros st st' Hst; cbn.
  - by intros [= <-].
  - destruct (step G ev st) as [st1|] eqn:Hstep; [|done].
    apply IH. by apply (step_no_task_failed G ev st).
Qed.

(** C8: a push that fails is logged and goes no further.  A reporter
    tick always completes, whatever its pushes return: each failed push
    leaves its warning in the log, the reporter is still running and can
    take its next tick, and the sampler, the agent's state, the contexts
    and the error of the group are untouched.  In every run neither
    goroutine returns an error, the group is never cancelled by one, a
    goroutine returns only after the signal, and [Run] returns nil. *)
Theorem push_failure_not_propagated {MemStats}
    (G : MemStats -> gmap string float) :
  (forall (st : RunState MemStats) (r : float),
     reporter st = Running ->
     exists st', step G (ReportTick r) st = Some st' /\
       reporter st' = Running /\ sampler st' = sampler st /\
       agent st' = agent st /\ ctxDone st' = ctxDone st /\
       egErr st' = egErr st /\
       (forall e, mjoin (head (net_faults (net st))) = Some e ->
          LogWarn "Push memstats" None e ∈ logs st') /\
       (forall e, mjoin (head (tail (net_faults (net st)))) = Some e ->
          LogWarn "Error on sending poll count"
            (Some (pollCount (agent st))) e ∈ logs st') /\
       (forall r', is_Some (step G (ReportTick r') st'))) /\
  (forall (a : Agent MemStats) (t : Transport) (evs : list (Event MemStats))
          (st : RunState MemStats),
     run G evs (start a t) = Some st ->
     egErr st = None /\
     (forall err, reporter st = Returned err -> err = None /\ ctxDone st = true) /\
     (forall err, sampler st = Returned err -> err = None /\ ctxDone st = true) /\
     (forall res, Run_returns st = Some res -> fst res = None)).
Proof.
  split.
  - intros st r Hrun. unfold step at 1. rewrite Hrun.
    eexists. split; [reflexivity|]. cbn.
    do 5 (split; [done|]).
    split; [apply (proj1 (sendReport_logs G (agent st) r (net st) (logs st)))|].
    split; [apply (proj2 (sendReport_logs G (agent st) r (net st) (logs st)))|].
    intros r'. unfold step. cbn. eauto.
  - intros a t evs st Hrun.
    assert (Hinv : no_task_failed st).
    { apply (run_no_task_failed G evs (start a t)); [|done].
      unfold no_task_failed. cbn. done. }
    destruct Hinv as (Heg & Hrep & Hsam).
    do 3 (split; [done|]).
    intros res. unfold Run_returns. rewrite Heg.
    destruct (reporter st), (sampler st); intros ?; by simplify_eq.
Qed.

Lemma push_failure_not_propagated_witness :
  exists st',
    step (fun stats : gmap string float => stats) (ReportTick 0.25%float)
      (mkRun (NewAgent 10 2 reading0)
         (mkTransport [] [Some (ErrText "connection refused")]) []
         false None Running Running) = Some st' /\
    reporter st' = Running /\ sampler st' = Running /\
    LogWarn "Push memstats" None (ErrText "connection refused") ∈ logs st'.
Proof.
  destruct (proj1 (push_failure_not_propagated (fun stats : gmap string float => stats))
              (mkRun (NewAgent 10 2 reading0)
                 (mkTransport [] [Some (ErrText "connection refused")]) []
                 false None Running Running)
              0.25%float eq_refl)
    as (st' & Hstep & Hrep & Hsam & _ & _ & _ & Hlog & _).
  exists st'. split; [exact Hstep|]. split; [exact Hrep|]. split; [exact Hsam|].
  apply Hlog. reflexivity.
Defined.

(** * Further properties of the store *)

(** ** Attempts that settle at once *)

(** An attempt that does not fail with a connection exception is the only
    one. *)
Lemma errorHanlder_settled {B} (dbs : DBStorage) (op : handler B) (w : World B) :
  transient (fst (op (backend w))) = false ->
  errorHanlder dbs op w = call op w.
Proof.
  unfold errorHanlder, call. destruct (op (backend w)) as [err b]. cbn [fst].
  intros ->. by destruct (isNil err || (retryCount dbs <=? 0)).
Qed.

Lemma QueryRow_Scan_settled {A} (s : Stmt) (sem : Tables -> result (A * Tables))
    (c : Conn) (x : A) :
  (forall t e, sem t = Err e -> transient (Some e) = false) ->
  transient (mjoin (head (faults c))) = false ->
  transient (fst (scan_into (QueryRow_Scan s sem) (c, x))) = false.
Proof.
  intros Hsem Hf. unfold scan_into, QueryRow_Scan, round_trip.
  destruct (mjoin (head (faults c))) as [e|] eqn:He; cbn -[transient]; [done|].
  destruct (sem (tables c)) as [[a t']|e] eqn:Hs; cbn -[transient]; [done|].
  by apply (Hsem (tables c)).
Qed.

(** ** Reads *)

(** X1: a read never changes the relations, whatever the backend does and
    however often it is retried.  It returns the stored row when it
    succeeds; without injected faults it succeeds exactly when the row
    exists, and otherwise returns the wrapped "no rows" error (or the
    undefined-table error when the relation is absent); a kind that is
    neither counter nor gauge is refused without a round trip. *)
Theorem ValueByMetrics_reads (dbs : DBStorage) (m : Metrics) (w : World Conn) :
  let r := ValueByMetrics dbs m w in
  let t := tables (backend w) in
  tables (backend (snd r)) = t /\
  saved (backend (snd r)) = saved (backend w) /\
  (MType m = "counter" ->
   (forall m', fst r = Ok m' ->
      exists v, counter_row (ID m) t = Some v /\ m' = NewMetricsForCounter (ID m) v) /\
   (faults (backend w) = [] ->
    fst r = match counters t with
            | None => Err (Wrapped ("get counter " ++ ID m) undefined_table)
            | Some c =>
                match c !! ID m with
                | Some v => Ok (NewMetricsForCounter (ID m) v)
                | None => Err (Wrapped ("get counter " ++ ID m) ErrNoRows)
                end
            end)) /\
  (MType m = "gauge" ->
   (forall m', fst r = Ok m' ->
      exists v, gauge_row (ID m) t = Some v /\ m' = NewMetricsForGauge (ID m) v) /\
   (faults (backend w) = [] ->
    fst r = match gauges t with
            | None => Err (Wrapped ("get gauge " ++ ID m) undefined_table)
            | Some g =>
                match g !! ID m with
                | Some v => Ok (NewMetricsForGauge (ID m) v)
                | None => Err (Wrapped ("get gauge " ++ ID m) ErrNoRows)
                end
            end)) /\
  (MType m <> "counter" -> MType m <> "gauge" ->
   r = (Err (ErrText ("unknown type " ++ MType m)), w)).
Proof.
  cbn zeta. unfold ValueByMetrics.
  destruct (decide (MType m = "counter")) as [Hc|Hc];
    [|destruct (decide (MType m = "gauge")) as [Hg|Hg]].
  - unfold valueCounterByMetrics, query_select_counter.
    pose proof (errorHanlder_query dbs (SelectCounter (ID m))
      (fun t => match sql_select_counter (ID m) t with
                | Ok v => Ok (v, t)
                | Err e => Err e
                end) 0 w) as [Hsv Hq].
    split; [|split; [|split; [|split]]].
    + destruct (errorHanlder _ _ _) as [[e|] w1]; cbn in *; [done|].
      destruct (sql_select_counter _ _); by simplify_eq.
    + by destruct (errorHanlder _ _ _) as [[e|] w1].
    + intros _. split.
      * intros m' Hm'. destruct (errorHanlder _ _ _) as [[e|] w1]; cbn in *; [done|].
        simplify_eq. exists (var_of w1). split; [|done].
        unfold sql_select_counter, counter_row in *.
        destruct (counters (tables (backend w))) as [c|]; [|done]. cbn.
        destruct (c !! ID m); by simplify_eq.
      * intros Hf. clear Hsv Hq. rewrite errorHanlder_settled.
        -- destruct w as [[pl t sv fl iss] sl]. cbn in Hf. subst fl.
           unfold call, scan_into, QueryRow_Scan, round_trip, sql_select_counter.
           cbn. destruct (counters t) as [c|]; [|done].
           by destruct (c !! ID m).
        -- apply QueryRow_Scan_settled; [|by rewrite Hf].
           intros t e. unfold sql_select_counter.
           repeat case_match; intros ?; by simplify_eq.
    + intros Hg. by rewrite Hc in Hg.
    + intros Hc'. done.
  - unfold valueGaugeByMetrics, query_select_gauge.
    pose proof (errorHanlder_query dbs (SelectGauge (ID m))
      (fun t => match sql_select_gauge (ID m) t with
                | Ok v => Ok (v, t)
                | Err e => Err e
                end) 0%float w) as [Hsv Hq].
    split; [|split; [|split; [|split]]].
    + destruct (errorHanlder _ _ _) as [[e|] w1]; cbn in *; [done|].
      destruct (sql_select_gauge _ _); by simplify_eq.
    + by destruct (errorHanlder _ _ _) as [[e|] w1].
    + intros Hc'. done.
    + intros _. split.
      * intros m' Hm'. destruct (errorHanlder _ _ _) as [[e|] w1]; cbn in *; [done|].
        simplify_eq. exists (var_of w1). split; [|done].
        unfold sql_select_gauge, gauge_row in *.
        destruct (gauges (tables (backend w))) as [g|]; [|done]. cbn.
        destruct (g !! ID m); by simplify_eq.
      * intros Hf. clear Hsv Hq. rewrite errorHanlder_settled.
        -- destruct w as [[pl t sv fl iss] sl]. cbn in Hf. subst fl.
           unfold call, scan_into, QueryRow_Scan, round_trip, sql_select_gauge.
           cbn. destruct (gauges t) as [g|]; [|done].
           by destruct (g !! ID m).
        -- apply QueryRow_Scan_settled; [|by rewrite Hf].
           intros t e. unfold sql_select_gauge.
           repeat case_match; intros ?; by simplify_eq.
    + intros _ Hg'. done.
  - split; [done|]. split; [done|]. split; [done|]. split; done.
Qed.

Lemma ValueByMetrics_reads_witness :
  fst (ValueByMetrics (mkDBStorage 3 1 1) (mkMetrics "hits" "counter" None None)
         ready_backend)
  = Err (Wrapped "get counter hits" ErrNoRows).
Proof.
  apply (proj2 (proj1 (proj2 (proj2 (ValueByMetrics_reads (mkDBStorage 3 1 1)
           (mkMetrics "hits" "counter" None None) ready_backend))) eq_refl) eq_refl).
Defined.

(** ** What an update leaves alone *)

Lemma sql_upsert_counter_frame (name : string) (d new : Z) (t t' : Tables) :
  sql_upsert_counter name d t = Ok (new, t') ->
  gauges t' = gauges t /\ is_Some (counters t) /\ is_Some (counters t') /\
  forall k, k <> name -> counter_row k t' = counter_row k t.
Proof.
  unfold sql_upsert_counter, counter_row.
  destruct (counters t) as [c|]; [|done].
  destruct (in_int4 d && in_int4 _); [|done].
  intros [= <- <-]. cbn. repeat split; eauto.
  intros k Hk. by rewrite lookup_insert_ne.
Qed.

Lemma sql_upsert_gauge_frame (name : string) (v v' : float) (t t' : Tables) :
  sql_upsert_gauge name v t = Ok (v', t') ->
  counters t' = counters t /\ is_Some (gauges t) /\ is_Some (gauges t') /\
  forall k, k <> name -> gauge_row k t' = gauge_row k t.
Proof.
  unfold sql_upsert_gauge, gauge_row.
  destruct (gauges t) as [g|]; [|done].
  intros [= <- <-]. cbn. repeat split; eauto.
  intros k Hk. by rewrite lookup_insert_ne.
Qed.

(** X2: an update touches one row of one relation.  Whatever the metric
    and whatever the backend does, [UpdateByMetrics] leaves every row of
    the other kind and every row of another name as it was, creates and
    drops no relation, opens no transaction, and changes nothing at all
    when it returns an error.  A Counter and a Gauge of one name are
    separate rows. *)
Theorem UpdateByMetrics_frame (dbs : DBStorage) (m : Metrics) (w : World Conn) :
  let r := UpdateByMetrics dbs m w in
  let t := tables (backend w) in
  let t' := tables (backend (snd r)) in
  saved (backend (snd r)) = saved (backend w) /\
  (forall e, fst r = Err e -> t' = t) /\
  (forall k, (MType m = "gauge" -> k <> ID m) -> gauge_row k t' = gauge_row k t) /\
  (forall k, (MType m = "counter" -> k <> ID m) -> counter_row k t' = counter_row k t) /\
  (is_Some (gauges t') <-> is_Some (gauges t)) /\
  (is_Some (counters t') <-> is_Some (counters t)).
Proof.
  cbn zeta. unfold UpdateByMetrics.
  destruct (decide (MType m = "counter")) as [Hc|Hc];
    [|destruct (decide (MType m = "gauge")) as [Hg|Hg]].
  - unfold updateCounterByMetrics.
    destruct (Delta m) as [d|]; [|by repeat split].
    pose proof (errorHanlder_query dbs (UpsertCounter (ID m) d)
                  (sql_upsert_counter (ID m) d) 0 w) as [Hsv Hq].
    unfold query_upsert_counter.
    destruct (errorHanlder _ _ _) as [[e|] w1]; cbn in *.
    + rewrite Hq. by repeat split.
    + apply sql_upsert_counter_frame in Hq as (Hg & Hc1 & Hc2 & Hrows).
      split; [done|]. split; [done|].
      split; [intros k _; unfold gauge_row; by rewrite Hg|].
      split; [intros k Hk; by apply Hrows, Hk|].
      rewrite Hg. by split.
  - unfold updateGaugeByMetrics.
    destruct (Value m) as [v|]; [|by repeat split].
    pose proof (errorHanlder_query dbs (UpsertGauge (ID m) v)
                  (sql_upsert_gauge (ID m) v) 0%float w) as [Hsv Hq].
    unfold query_upsert_gauge.
    destruct (errorHanlder _ _ _) as [[e|] w1]; cbn in *.
    + rewrite Hq. by repeat split.
    + apply sql_upsert_gauge_frame in Hq as (Hcs & Hg1 & Hg2 & Hrows).
      split; [done|]. split; [done|].
      split; [intros k Hk; by apply Hrows, Hk|].
      split; [intros k _; unfold counter_row; by rewrite Hcs|].
      rewrite Hcs. by split.
  - by repeat split.
Qed.

Lemma UpdateByMetrics_frame_witness :
  counter_row "x"
    (tables (backend (snd (UpdateByMetrics (mkDBStorage 0 0 0) (gauge_update "x" 1.5)
       (snd (UpdateByMetrics (mkDBStorage 0 0 0) (counter_update "x" 5)
               ready_backend))))))
  = Some 5.
Proof.
  rewrite (proj1 (proj2 (proj2 (proj2 (UpdateByMetrics_frame (mkDBStorage 0 0 0)
             (gauge_update "x" 1.5)
             (snd (UpdateByMetrics (mkDBStorage 0 0 0) (counter_update "x" 5)
                     ready_backend)))))) "x").
  - reflexivity.
  - discriminate.
Defined.

(** ** What is retried *)

Lemma sql_upsert_counter_not_transient (name : string) (d : Z) (t : Tables) (e : error) :
  sql_upsert_counter name d t = Err e -> transient (Some e) = false.
Proof.
  unfold sql_upsert_counter. repeat case_match; intros ?; by simplify_eq.
Qed.

Lemma sql_upsert_gauge_not_transient (name : string) (v : float) (t : Tables) (e : error) :
  sql_upsert_gauge name v t = Err e -> transient (Some e) = false.
Proof.
  unfold sql_upsert_gauge. repeat case_match; intros ?; by simplify_eq.
Qed.

Lemma sql_select_counter_not_transient (name : string) (t : Tables) (e : error) :
  match sql_select_counter name t with
  | Ok v => Ok (v, t)
  | Err e => Err e
  end = Err e -> transient (Some e) = false.
Proof.
  unfold sql_select_counter. repeat case_match; intros ?; by simplify_eq.
Qed.

Lemma sql_select_gauge_not_transient (name : string) (t : Tables) (e : error) :
  match sql_select_gauge name t with
  | Ok v => Ok (v, t)
  | Err e => Err e
  end = Err e -> transient (Some e) = false.
Proof.
  unfold sql_select_gauge. repeat case_match; intros ?; by simplify_eq.
Qed.

(** A query whose first round trip does not end in a connection
    exception: one request, no sleep. *)
Lemma errorHanlder_query_settled {A} (dbs : DBStorage) (s : Stmt)
    (sem : Tables -> result (A * Tables)) (x0 : A) (w : World Conn) :
  (forall t e, sem t = Err e -> transient (Some e) = false) ->
  transient (mjoin (head (faults (backend w)))) = false ->
  let r := errorHanlder dbs (scan_into (QueryRow_Scan s sem)) (bind_var x0 w) in
  slept (snd r) = slept w /\
  issued (backend (conn_of (snd r))) = issued (backend w) ++ [ReqStmt s].
Proof.
  intros Hsem Hf. cbn zeta.
  rewrite errorHanlder_settled by (by apply QueryRow_Scan_settled).
  unfold call, bind_var, scan_into, QueryRow_Scan, round_trip. cbn.
  destruct (mjoin (head (faults (backend w)))); cbn; [done|].
  by destruct (sem (tables (backend w))) as [[a t']|e].
Qed.

(** A query whose first round trip ends in a connection exception, with
    retries allowed: the initial delay is slept. *)
Lemma errorHanlder_query_retried {A} (dbs : DBStorage) (s : Stmt)
    (sem : Tables -> result (A * Tables)) (x0 : A) (w : World Conn) :
  0 < retryCount dbs ->
  transient (mjoin (head (faults (backend w)))) = true ->
  exists rest,
    slept (snd (errorHanlder dbs (scan_into (QueryRow_Scan s sem)) (bind_var x0 w)))
    = slept w ++ seconds (duration dbs) :: rest.
Proof.
  intros Hpos Hf.
  destruct (errorHanlder_run dbs (scan_into (QueryRow_Scan s sem))
              (backend w, x0) (slept w))
    as (r & Hrun & _ & _ & Hlast & _).
  unfold bind_var. rewrite Hrun. cbn [snd slept].
  assert (H0 : transient (outcome_at (scan_into (QueryRow_Scan s sem)) 0
                            (backend w, x0)) = true).
  { unfold outcome_at, scan_into, QueryRow_Scan, round_trip.
    cbn -[transient].
    destruct (mjoin (head (faults (backend w)))) as [e|]; [done|].
    discriminate Hf. }
  destruct r as [|r].
  - destruct Hlast as [Hl | Hl]; [congruence | lia].
  - rewrite delays_S. eauto.
Qed.

(** X3: the store retries after connection exceptions only.  When the
    first round trip of an update or of a read does not fail with a
    connection exception, the operation makes no further round trip and
    does not sleep, whatever the retry configuration: a missing row, an
    absent relation or a value out of range reach the caller at once.
    When it does and retries are allowed, the initial delay is slept. *)
Theorem store_retries_connection_exceptions_only (dbs : DBStorage) (m : Metrics)
    (w : World Conn) :
  (transient (mjoin (head (faults (backend w)))) = false ->
   slept (snd (UpdateByMetrics dbs m w)) = slept w /\
   slept (snd (ValueByMetrics dbs m w)) = slept w /\
   (length (issued_since w (snd (UpdateByMetrics dbs m w))) <= 1)%nat /\
   (length (issued_since w (snd (ValueByMetrics dbs m w))) <= 1)%nat) /\
  (0 < retryCount dbs ->
   transient (mjoin (head (faults (backend w)))) = true ->
   (MType m = "counter" /\ is_Some (Delta m)) \/
   (MType m = "gauge" /\ is_Some (Value m)) ->
   (exists rest, slept (snd (UpdateByMetrics dbs m w))
                 = slept w ++ seconds (duration dbs) :: rest) /\
   (exists rest, slept (snd (ValueByMetrics dbs m w))
                 = slept w ++ seconds (duration dbs) :: rest)).
Proof.
  assert (Hnone : forall w0 : World Conn, length (issued_since w0 w0) = O).
  { intros w0. unfold issued_since. by rewrite drop_all. }
  assert (Hone : forall (w0 w1 : World Conn) s,
            issued (backend w1) = issued (backend w0) ++ [ReqStmt s] ->
            length (issued_since w0 w1) = 1%nat).
  { intros w0 w1 s Hi. unfold issued_since. by rewrite Hi, drop_app_length. }
  split.
  - intros Hf. unfold UpdateByMetrics, ValueByMetrics,
      updateCounterByMetrics, updateGaugeByMetrics,
      valueCounterByMetrics, valueGaugeByMetrics,
      query_upsert_counter, query_upsert_gauge,
      query_select_counter, query_select_gauge.
    pose proof (fun d => errorHanlder_query_settled dbs (UpsertCounter (ID m) d)
      (sql_upsert_counter (ID m) d) 0 w
      (sql_upsert_counter_not_transient (ID m) d) Hf) as Huc.
    pose proof (fun v => errorHanlder_query_settled dbs (UpsertGauge (ID m) v)
      (sql_upsert_gauge (ID m) v) 0%float w
      (sql_upsert_gauge_not_transient (ID m) v) Hf) as Hug.
    pose proof (errorHanlder_query_settled dbs (SelectCounter (ID m)) _ 0 w
      (sql_select_counter_not_transient (ID m)) Hf) as Hsc.
    pose proof (errorHanlder_query_settled dbs (SelectGauge (ID m)) _ 0%float w
      (sql_select_gauge_not_transient (ID m)) Hf) as Hsg.
    cbn zeta in *.
    destruct (decide (MType m = "counter"));
      [|destruct (decide (MType m = "gauge"))].
    + destruct (errorHanlder dbs (scan_into (QueryRow_Scan (SelectCounter _) _)) _)
        as [[?|] ws]; destruct Hsc as [Hsc1 Hsc2];
      (destruct (Delta m) as [d|];
       [specialize (Huc d);
        destruct (errorHanlder dbs (scan_into (QueryRow_Scan (UpsertCounter _ _) _)) _)
          as [[?|] wu]; destruct Huc as [Huc1 Huc2]|]);
      cbn [fst snd conn_of slept] in *;
      rewrite ?Hnone, ?(Hone _ _ _ Huc2), ?(Hone _ _ _ Hsc2);
      repeat split; (done || lia).
    + destruct (errorHanlder dbs (scan_into (QueryRow_Scan (SelectGauge _) _)) _)
        as [[?|] ws]; destruct Hsg as [Hsg1 Hsg2];
      (destruct (Value m) as [v|];
       [specialize (Hug v);
        destruct (errorHanlder dbs (scan_into (QueryRow_Scan (UpsertGauge _ _) _)) _)
          as [[?|] wu]; destruct Hug as [Hug1 Hug2]|]);
      cbn [fst snd conn_of slept] in *;
      rewrite ?Hnone, ?(Hone _ _ _ Hug2), ?(Hone _ _ _ Hsg2);
      repeat split; (done || lia).
    + cbn. rewrite Hnone. repeat split; (done || lia).
  - intros Hpos Hf Hkind.
    unfold UpdateByMetrics, ValueByMetrics,
      updateCounterByMetrics, updateGaugeByMetrics,
      valueCounterByMetrics, valueGaugeByMetrics,
      query_upsert_counter, query_upsert_gauge,
      query_select_counter, query_select_gauge.
    destruct Hkind as [[Hk [d Hd]] | [Hk [v Hv]]].
    + destruct (decide (MType m = "counter")) as [_|Hc]; [|done].
      rewrite Hd.
      pose proof (errorHanlder_query_retried dbs (UpsertCounter (ID m) d)
        (sql_upsert_counter (ID m) d) 0 w Hpos Hf) as [r1 H1].
      pose proof (errorHanlder_query_retried dbs (SelectCounter (ID m))
        (fun t => match sql_select_counter (ID m) t with
                  | Ok v => Ok (v, t)
                  | Err e => Err e
                  end) 0 w Hpos Hf) as [r2 H2].
      split.
      * exists r1. by destruct (errorHanlder _ _ _) as [[?|] wu].
      * exists r2. by destruct (errorHanlder dbs (scan_into (QueryRow_Scan (SelectCounter _) _)) _) as [[?|] wu].
    + destruct (decide (MType m = "counter")) as [Hc|_]; [by rewrite Hk in Hc|].
      destruct (decide (MType m = "gauge")) as [_|Hg]; [|done].
      rewrite Hv.
      pose proof (errorHanlder_query_retried dbs (UpsertGauge (ID m) v)
        (sql_upsert_gauge (ID m) v) 0%float w Hpos Hf) as [r1 H1].
      pose proof (errorHanlder_query_retried dbs (SelectGauge (ID m))
        (fun t => match sql_select_gauge (ID m) t with
                  | Ok v => Ok (v, t)
                  | Err e => Err e
                  end) 0%float w Hpos Hf) as [r2 H2].
      split.
      * exists r1. by destruct (errorHanlder _ _ _) as [[?|] wu].
      * exists r2. by destruct (errorHanlder dbs (scan_into (QueryRow_Scan (SelectGauge _) _)) _) as [[?|] wu].
Qed.

Lemma store_retries_connection_exceptions_only_witness :
  exists rest,
    slept (snd (UpdateByMetrics (mkDBStorage 3 1 1) (counter_update "hits" 5)
                  (mkWorld (mkConn false (mkTables (Some ∅) (Some ∅)) None
                              [Some (PgError "08006")] []) [])))
    = [] ++ seconds 1 :: rest.
Proof.
  destruct (proj2 (store_retries_connection_exceptions_only (mkDBStorage 3 1 1)
                     (counter_update "hits" 5)
                     (mkWorld (mkConn false (mkTables (Some ∅) (Some ∅)) None
                                 [Some (PgError "08006")] []) [])))
    as [H _].
  - cbn. lia.
  - reflexivity.
  - left. split; [reflexivity|]. by eexists.
  - exact H.
Defined.

(** ** Batches, round trip by round trip *)

(** X4: [Updates] retries the sending of the batch only.  A failure of
    [BEGIN], a connection exception included, ends the call at once: one
    request, no sleep, nothing changed.  So does a failure of [COMMIT]
    after a batch that went through: on a single connection the
    relations are then as before the call, with a pool the batch has
    been applied although an error is returned. *)
Theorem Updates_begin_commit_not_retried (dbs : DBStorage)
    (metrics : list Metrics) (batch : list Stmt) (e : error) (w : World Conn) :
  queueMetrics metrics [] = Returns batch ->
  (forall rest, faults (backend w) = Some e :: rest ->
   Updates dbs metrics w
   = (Returns (Some (Wrapped "send batch" e)),
      mkWorld (mkConn (pooled (backend w)) (tables (backend w))
                 (saved (backend w)) rest (issued (backend w) ++ [ReqBegin]))
        (slept w))) /\
  (forall rest t',
   faults (backend w) = None :: None :: Some e :: rest ->
   saved (backend w) = None ->
   sql_exec_all batch (tables (backend w)) = (None, t') ->
   let r := Updates dbs metrics w in
   fst r = Returns (Some (Wrapped "send batch" e)) /\
   slept (snd r) = slept w /\
   issued_since w (snd r) = [ReqBegin; ReqBatch batch; ReqCommit] /\
   faults (backend (snd r)) = rest /\
   tables (backend (snd r))
   = if pooled (backend w) then t' else tables (backend w)).
Proof.
  intros Hq. destruct w as [[pl t sv fl iss] sl]. cbn. split.
  - intros rest ->. unfold Updates. rewrite Hq.
    unfold BeginFunc, call, conn_Begin, round_trip. reflexivity.
  - intros rest t' -> -> Hrun. unfold Updates. rewrite Hq.
    unfold BeginFunc, call, conn_Begin, round_trip, issued_since.
    cbn. destruct pl; cbn;
      unfold errorHanlder, call, SendBatch_Close, round_trip; cbn;
      rewrite Hrun; cbn; rewrite <- !app_assoc, drop_app_length; done.
Qed.

Lemma Updates_begin_commit_not_retried_witness :
  Updates (mkDBStorage 3 1 1) [counter_update "hits" 5]
    (mkWorld (mkConn false (mkTables (Some ∅) (Some ∅)) None
                [Some (PgError "08006")] []) [])
  = (Returns (Some (Wrapped "send batch" (PgError "08006"))),
     mkWorld (mkConn false (mkTables (Some ∅) (Some ∅)) None [] ([] ++ [ReqBegin])) []).
Proof.
  apply (proj1 (Updates_begin_commit_not_retried (mkDBStorage 3 1 1)
                  [counter_update "hits" 5] [UpsertCounter "hits" 5]
                  (PgError "08006")
                  (mkWorld (mkConn false (mkTables (Some ∅) (Some ∅)) None
                              [Some (PgError "08006")] []) [])
                  eq_refl) [] eq_refl).
Defined.

(** The statement a metric queues. *)
Lemma queueMetrics_app (metrics : list Metrics) :
  forall batch batch',
  queueMetrics metrics batch = Returns batch' ->
  exists queued, batch' = batch ++ queued /\
    forall b0, queueMetrics metrics b0 = Returns (b0 ++ queued).
Proof.
  induction metrics as [|m metrics IH]; intros batch batch'; cbn.
  - intros [= <-]. exists []. split; [by rewrite app_nil_r|].
    intros b0. by rewrite app_nil_r.
  - destruct (decide (MType m = "gauge")) as [Hg|Hg];
      [|destruct (decide (MType m = "counter")) as [Hc|Hc]].
    + destruct (Value m) as [v|]; [|done]. intros Hq.
      apply IH in Hq as (queued & -> & Hall).
      exists (UpsertGauge (ID m) v :: queued).
      split; [by rewrite <- app_assoc|].
      intros b0. rewrite Hall. by rewrite <- app_assoc.
    + destruct (Delta m) as [d|]; [|done]. intros Hq.
      apply IH in Hq as (queued & -> & Hall).
      exists (UpsertCounter (ID m) d :: queued).
      split; [by rewrite <- app_assoc|].
      intros b0. rewrite Hall. by rewrite <- app_assoc.
    + apply IH.
Qed.

(** The relations after single updates that have all succeeded are those
    after the statements the same metrics queue. *)
Lemma updateAll_as_batch (dbs : DBStorage) (metrics : list Metrics) :
  forall w : World Conn,
  Forall succeeded (fst (updateAll dbs metrics w)) ->
  exists batch, queueMetrics metrics [] = Returns batch /\
    sql_exec_all batch (tables (backend w))
    = (None, tables (backend (snd (updateAll dbs metrics w)))).
Proof.
  induction metrics as [|m metrics IH]; intros w; cbn.
  - intros _. by exists [].
  - destruct (UpdateByMetrics dbs m w) as [r w1] eqn:Hm.
    specialize (IH w1).
    destruct (updateAll dbs metrics w1) as [rs w2]. cbn [fst snd] in *.
    intros Hall. apply Forall_cons in Hall as [Hr Hrs].
    destruct (IH Hrs) as (batch & Hq & Hrun).
    destruct (queueMetrics_app metrics [] batch Hq) as (queued & Hb & Hall).
    cbn in Hb. subst queued.
    revert Hm. unfold UpdateByMetrics.
    destruct (decide (MType m = "counter")) as [Hc|Hc];
      [|destruct (decide (MType m = "gauge")) as [Hg|Hg]].
    + rewrite decide_False by (by rewrite Hc).
      unfold updateCounterByMetrics. destruct (Delta m) as [d|];
        [|intros [= <- <-]; done].
      pose proof (errorHanlder_query dbs (UpsertCounter (ID m) d)
                    (sql_upsert_counter (ID m) d) 0 w) as [_ Hqry].
      unfold query_upsert_counter.
      destruct (errorHanlder _ _ _) as [[e|] wq]; intros [= <- <-]; [done|].
      cbn in Hqry. rewrite Hall. eexists. split; [reflexivity|].
      cbn. by rewrite Hqry.
    + unfold updateGaugeByMetrics. destruct (Value m) as [v|];
        [|intros [= <- <-]; done].
      pose proof (errorHanlder_query dbs (UpsertGauge (ID m) v)
                    (sql_upsert_gauge (ID m) v) 0%float w) as [_ Hqry].
      unfold query_upsert_gauge.
      destruct (errorHanlder _ _ _) as [[e|] wq]; intros [= <- <-]; [done|].
      cbn in Hqry. rewrite Hall. eexists. split; [reflexivity|].
      cbn. by rewrite Hqry.
    + intros [= <- <-]. done.
Qed.

(** X5: a batch does what the single updates do.  When [Updates] has
    returned nil for [metrics], and [UpdateByMetrics] has succeeded for
    each of them in turn from the same relations, both have left the
    same relations. *)
Theorem Updates_as_single_updates (dbs dbs' : DBStorage) (metrics : list Metrics)
    (w w' : World Conn) :
  saved (backend w) = None ->
  tables (backend w') = tables (backend w) ->
  fst (Updates dbs metrics w) = Returns None ->
  Forall succeeded (fst (updateAll dbs' metrics w')) ->
  tables (backend (snd (Updates dbs metrics w)))
  = tables (backend (snd (updateAll dbs' metrics w'))).
Proof.
  intros Hs Ht Hnil Hall.
  destruct (updateAll_as_batch dbs' metrics w' Hall) as (batch & Hq & Hrun).
  pose proof (BeginFunc_batch dbs batch w Hs) as (_ & Hdone & _).
  revert Hnil. unfold Updates. rewrite Hq.
  destruct (BeginFunc _ w) as [[e|] w1]; cbn in *; [done|].
  intros _. specialize (Hdone eq_refl). rewrite Ht in Hrun. congruence.
Qed.

Lemma Updates_as_single_updates_witness :
  tables (backend (snd (Updates (mkDBStorage 0 0 0)
     [counter_update "hits" 5; gauge_update "temp" 3.5; counter_update "hits" 7]
     ready_backend)))
  = tables (backend (snd (updateAll (mkDBStorage 0 0 0)
     [counter_update "hits" 5; gauge_update "temp" 3.5; counter_update "hits" 7]
     ready_backend))).
Proof.
  apply Updates_as_single_updates; [reflexivity | reflexivity | reflexivity|].
  repeat constructor.
Defined.

(** The metrics [Updates] has a statement for. *)
Lemma queueMetrics_filter (metrics : list Metrics) :
  forall batch,
  queueMetrics metrics batch
  = queueMetrics
      (filter (fun m => MType m = "gauge" \/ MType m = "counter") metrics) batch.
Proof.
  induction metrics as [|m metrics IH]; intros batch; [done|].
  rewrite filter_cons. cbn [queueMetrics].
  destruct (decide (MType m = "gauge")) as [Hg|Hg];
    [|destruct (decide (MType m = "counter")) as [Hc|Hc]].
  - rewrite decide_True by auto. cbn [queueMetrics].
    rewrite decide_True by done. destruct (Value m); [apply IH|done].
  - rewrite decide_True by auto. cbn [queueMetrics].
    rewrite decide_False by done. rewrite decide_True by done.
    destruct (Delta m); [apply IH|done].
  - rewrite decide_False by (intros [?|?]; done). apply IH.
Qed.

(** X6: [Updates] passes over metrics of a kind that is neither gauge nor
    counter: it does exactly what it does for the batch without them,
    where [UpdateByMetrics] refuses such a metric.  A batch of such
    metrics only, or an empty one, still makes the three round trips and
    leaves the relations as they are; without injected faults it returns
    nil. *)
Theorem Updates_skips_unknown_kinds (dbs : DBStorage) (metrics : list Metrics)
    (w : World Conn) :
  Updates dbs metrics w
  = Updates dbs
      (filter (fun m => MType m = "gauge" \/ MType m = "counter") metrics) w /\
  (Forall (fun m => MType m <> "gauge" /\ MType m <> "counter") metrics ->
   saved (backend w) = None ->
   tables (backend (snd (Updates dbs metrics w))) = tables (backend w) /\
   (faults (backend w) = [] ->
    Updates dbs metrics w
    = (Returns None,
       mkWorld (mkConn (pooled (backend w)) (tables (backend w)) None []
                  (issued (backend w) ++ [ReqBegin; ReqBatch []; ReqCommit]))
         (slept w))) /\
   Forall (fun m => exists e, fst (UpdateByMetrics dbs m w) = Err e) metrics).
Proof.
  split.
  - unfold Updates. by rewrite queueMetrics_filter.
  - intros Hall Hs.
    assert (Hq : queueMetrics metrics [] = Returns []).
    { rewrite queueMetrics_filter. clear -Hall.
      induction Hall as [|m ms [Hg Hc] _ IH]; [done|].
      rewrite filter_cons_False by (intros [?|?]; done). exact IH. }
    split; [|split].
    + pose proof (BeginFunc_batch dbs [] w Hs) as (_ & _ & _ & _ & Hany).
      unfold Updates. rewrite Hq.
      destruct (BeginFunc _ w) as [[e|] w1]; cbn in *;
        destruct Hany as [Hany|Hany]; by simplify_eq.
    + intros Hf. unfold Updates. rewrite Hq.
      destruct w as [[pl t sv fl iss] sl]. cbn in Hs, Hf. subst sv fl.
      unfold BeginFunc, call, conn_Begin, round_trip. cbn.
      destruct pl; cbn;
        unfold errorHanlder, call, SendBatch_Close, round_trip; cbn;
        by rewrite <- !app_assoc.
    + eapply Forall_impl; [exact Hall|]. intros m [Hg Hc]. cbn beta.
      unfold UpdateByMetrics. rewrite !decide_False by done. eauto.
Qed.

Lemma Updates_skips_unknown_kinds_witness :
  Updates (mkDBStorage 3 1 1) [mkMetrics "x" "timer" (Some 1) None] ready_backend
  = (Returns None,
     mkWorld (mkConn false (mkTables (Some ∅) (Some ∅)) None []
                ([] ++ [ReqBegin; ReqBatch []; ReqCommit])) []).
Proof.
  apply (proj1 (proj2 (proj2 (Updates_skips_unknown_kinds (mkDBStorage 3 1 1)
           [mkMetrics "x" "timer" (Some 1) None] ready_backend)
           ltac:(repeat constructor; discriminate) eq_refl)) eq_refl).
Defined.

(** ** Reading whole relations *)

Lemma collect_list_to_map {A} (l : list (string * A)) :
  forall retMap : gmap string A,
  NoDup (l.*1) -> collect l retMap = list_to_map l ∪ retMap.
Proof.
  unfold collect. induction l as [|[k v] l IH]; intros retMap Hnd; cbn.
  - by rewrite (left_id_L ∅ (∪)).
  - apply NoDup_cons in Hnd as [Hk Hnd]. rewrite IH by done.
    rewrite <- insert_union_l. symmetry. apply insert_union_r.
    by apply not_elem_of_list_to_map_1.
Qed.

(** Whatever the order in which the rows of a relation arrive, the loop
    of [ForEachRow] rebuilds the relation. *)
Lemma collect_rows {A} (rel : gmap string A) (l : list (string * A)) :
  l ≡ₚ map_to_list rel -> collect l ∅ = rel.
Proof.
  intros Hl.
  assert (Hnd : NoDup (l.*1)).
  { rewrite Hl. apply NoDup_fst_map_to_list. }
  rewrite collect_list_to_map by done. rewrite (right_id_L ∅ (∪)).
  rewrite (list_to_map_proper l (map_to_list rel)) by done.
  apply list_to_map_to_list.
Qed.

Lemma getAll_reads {A} (rel : Tables -> option (gmap string A))
    (sem : Tables -> result (list (string * A))) (what : string)
    (dbs : DBStorage) (w : World Conn) :
  (forall t, sem t = match rel t with
                     | None => Err undefined_table
                     | Some g => Ok (map_to_list g)
                     end) ->
  let r := getAll sem what dbs w in
  let t := tables (backend w) in
  tables (backend (snd r)) = t /\
  saved (backend (snd r)) = saved (backend w) /\
  issued (backend (snd r)) = issued (backend w) /\
  (forall m, fst r = Ok m -> rel t = Some m).
Proof.
  intros Hsem. cbn zeta. set (t := tables (backend w)).
  set (Inv := fun c : Conn =>
    tables c = t /\ saved c = saved (backend w) /\ issued c = issued (backend w)).
  assert (Hquery : forall b : Conn * Rows A, Inv (fst b) ->
    (Inv (fst (snd (query_into sem b))) /\
     (fst (query_into sem b) = None ->
      exists g, rel t = Some g /\
        snd (snd (query_into sem b)) = mkRows (map_to_list g) None)) /\
    (transient (fst (query_into sem b)) = true ->
     Inv (fst (snd (query_into sem b))))).
  { intros [c rows] (Ht & Hs & Hi). cbn in Ht, Hs, Hi.
    unfold query_into, other_round_trip.
    destruct (mjoin (head (faults c))) as [e|]; cbn -[transient]; [done|].
    rewrite Hsem, Ht. destruct (rel t) as [g|]; cbn -[transient]; [|done].
    split; [|done]. split; [done|]. intros _. by exists g. }
  pose proof (errorHanlder_rule dbs (query_into sem)
    (fun b => Inv (fst b))
    (fun e b => Inv (fst b) /\
       (e = None -> exists g, rel t = Some g /\ snd b = mkRows (map_to_list g) None))
    Hquery (bind_var (mkRows [] None) w)) as H1.
  unfold getAll.
  destruct (errorHanlder dbs (query_into sem) _) as [[e|] w1];
    cbn [fst snd] in H1; destruct H1 as [(Ht & Hs & Hi) Hrows]; try done.
  destruct (Hrows eq_refl) as (g & Hg & Hw1). clear Hrows.
  unfold var_of. rewrite Hw1.
  set (Inv2 := fun b : Conn * (Rows A * gmap string A) =>
    Inv (fst b) /\
    (snd b = (mkRows (map_to_list g) None, ∅) \/ rows_err (fst (snd b)) <> None)).
  assert (Heach : forall b : Conn * (Rows A * gmap string A), Inv2 b ->
    (Inv (fst (snd (forEachRow_into b))) /\
     (fst (forEachRow_into b) = None -> snd (snd (snd (forEachRow_into b))) = g)) /\
    (transient (fst (forEachRow_into b)) = true -> Inv2 (snd (forEachRow_into b)))).
  { intros [c [rows retMap]] [(Ht2 & Hs2 & Hi2) Hst]. cbn in Ht2, Hs2, Hi2, Hst.
    unfold forEachRow_into, other_round_trip, Inv2.
    destruct (rows_err rows) as [e|] eqn:He; cbn -[transient].
    { split; [done|]. intros _. split; [done|]. by right. }
    destruct Hst as [Hst|Hst]; [|done]. injection Hst as -> ->.
    destruct (mjoin (head (faults c))) as [e|]; cbn -[transient].
    - split; [done|]. intros _. split; [done|]. by right.
    - split; [|done]. split; [done|]. intros _. by apply collect_rows. }
  pose proof (errorHanlder_rule dbs forEachRow_into Inv2
    (fun e b => Inv (fst b) /\ (e = None -> snd (snd b) = g))
    Heach (bind_var (mkRows (map_to_list g) None, ∅) (conn_of w1))) as H2.
  destruct (errorHanlder dbs forEachRow_into _) as [[e|] w2];
    cbn [fst snd] in H2;
    (destruct H2 as [(Ht2 & Hs2 & Hi2) Hmap];
     [split; [done|]; by left|]); cbn [fst snd conn_of backend var_of].
  - done.
  - split; [done|]. split; [done|]. split; [done|].
    intros m [= <-]. by rewrite Hmap.
Qed.

Lemma getAll_no_fault {A} (rel : Tables -> option (gmap string A))
    (sem : Tables -> result (list (string * A))) (what : string)
    (dbs : DBStorage) (w : World Conn) :
  (forall t, sem t = match rel t with
                     | None => Err undefined_table
                     | Some g => Ok (map_to_list g)
                     end) ->
  faults (backend w) = [] ->
  getAll sem what dbs w
  = (match rel (tables (backend w)) with
     | Some g => Ok g
     | None => Err (Wrapped ("get " ++ what ++ " from db") undefined_table)
     end, w).
Proof.
  intros Hsem. destruct w as [[pl t sv fl iss] sl]. cbn. intros ->.
  unfold getAll. rewrite errorHanlder_settled.
  - unfold call, bind_var, conn_of, var_of, query_into, other_round_trip.
    cbn -[errorHanlder]. rewrite Hsem.
    destruct (rel t) as [g|]; cbn -[errorHanlder]; [|reflexivity].
    rewrite errorHanlder_settled by reflexivity.
    unfold call, forEachRow_into, other_round_trip. cbn -[collect].
    by rewrite (collect_rows g (map_to_list g)).
  - unfold bind_var, query_into, other_round_trip. cbn -[transient].
    rewrite Hsem. by destruct (rel t).
Qed.

(** X7: [GetAllGauge] and [GetAllCounter] return the relation as it is.
    Whatever the backend does and however often the query is retried,
    they change no relation, and the map they return on success is the
    whole relation, each name with its stored value, in whatever order
    the rows arrive.  Without injected faults they return that map, the
    empty map for an empty relation, and the wrapped undefined-table
    error when the relation does not exist. *)
Theorem GetAll_returns_relation (dbs : DBStorage) (w : World Conn) :
  let t := tables (backend w) in
  (tables (backend (snd (GetAllGauge dbs w))) = t /\
   tables (backend (snd (GetAllCounter dbs w))) = t) /\
  (forall m, fst (GetAllGauge dbs w) = Ok m -> gauges t = Some m) /\
  (forall m, fst (GetAllCounter dbs w) = Ok m -> counters t = Some m) /\
  (forall (rel : gmap string float) l,
     l ≡ₚ map_to_list rel -> collect l ∅ = rel) /\
  (faults (backend w) = [] ->
   GetAllGauge dbs w
   = (match gauges t with
      | Some g => Ok g
      | None => Err (Wrapped "get gauges from db" undefined_table)
      end, w) /\
   GetAllCounter dbs w
   = (match counters t with
      | Some c => Ok c
      | None => Err (Wrapped "get counters from db" undefined_table)
      end, w)).
Proof.
  cbn zeta.
  pose proof (getAll_reads gauges sql_all_gauges "gauges" dbs w
                (fun t => eq_refl)) as (Hg1 & _ & _ & Hg2).
  pose proof (getAll_reads counters sql_all_counters "counters" dbs w
                (fun t => eq_refl)) as (Hc1 & _ & _ & Hc2).
  split; [done|]. split; [done|]. split; [done|].
  split; [apply collect_rows|].
  intros Hf. split.
  - apply (getAll_no_fault gauges sql_all_gauges "gauges" dbs w); done.
  - apply (getAll_no_fault counters sql_all_counters "counters" dbs w); done.
Qed.

Lemma GetAll_returns_relation_witness :
  fst (GetAllCounter (mkDBStorage 3 1 1)
         (snd (updateAll (mkDBStorage 3 1 1)
                 [counter_update "hits" 5; counter_update "hits" 7;
                  counter_update "misses" 1] ready_backend)))
  = Ok {["hits" := 12; "misses" := 1]}.
Proof.
  rewrite (proj2 (proj2 (proj2 (proj2 (proj2 (GetAll_returns_relation
             (mkDBStorage 3 1 1)
             (snd (updateAll (mkDBStorage 3 1 1)
                     [counter_update "hits" 5; counter_update "hits" 7;
                      counter_update "misses" 1] ready_backend)))))) eq_refl)).
  reflexivity.
Defined.

(** ** Construction and the relations at hand *)

(** X8: construction never touches a relation that exists.  Whatever the
    backend does, a relation present before [NewDBStorage] is the same
    afterwards, rows included, and no transaction is left open; after a
    construction that succeeds both relations exist, the ones it has
    created being empty. *)
Theorem NewDBStorage_keeps_relations (w : World Conn) :
  saved (backend w) = None ->
  let r := NewDBStorage w in
  let t := tables (backend w) in
  let t' := tables (backend (snd r)) in
  saved (backend (snd r)) = None /\
  (forall g, gauges t = Some g -> gauges t' = Some g) /\
  (forall c, counters t = Some c -> counters t' = Some c) /\
  (forall dbs, fst r = Ok dbs ->
     gauges t' = Some (default ∅ (gauges t)) /\
     counters t' = Some (default ∅ (counters t))).
Proof.
  destruct w as [[pl [g c] sv fl iss] sl]. cbn. intros ->.
  unfold NewDBStorage, createTables, BeginFunc, errorHanlder, call.
  cbn.
  destruct pl, g as [g|], c as [c|]; repeat next_fault;
    (split; [done|]); (split; [intros ?; by intros [= <-]|]);
    (split; [intros ?; by intros [= <-]|]); intros dbs; by intros [= <-].
Qed.

Lemma NewDBStorage_keeps_relations_witness :
  gauges (tables (backend (snd (NewDBStorage
    (mkWorld (mkConn true (mkTables (Some {["temp" := 9.1%float]}) None) None
                [None; None; None; Some (PgError "08006")] []) [])))))
  = Some {["temp" := 9.1%float]}.
Proof.
  apply (proj1 (proj2 (NewDBStorage_keeps_relations
    (mkWorld (mkConn true (mkTables (Some {["temp" := 9.1%float]}) None) None
                [None; None; None; Some (PgError "08006")] []) []) eq_refl))).
  reflexivity.
Defined.

(** X9: on a single connection a construction that fails leaves the
    relations exactly as they were: a relation it has created is gone
    again with the rollback. *)
Theorem NewDBStorage_rolls_back (w : World Conn) (e : error) :
  pooled (backend w) = false ->
  saved (backend w) = None ->
  fst (NewDBStorage w) = Err e ->
  tables (backend (snd (NewDBStorage w))) = tables (backend w).
Proof.
  destruct w as [[pl [g c] sv fl iss] sl]. cbn. intros -> ->.
  unfold NewDBStorage, createTables, BeginFunc, errorHanlder, call.
  cbn.
  destruct g as [g|], c as [c|]; repeat next_fault; done.
Qed.

Lemma NewDBStorage_rolls_back_witness :
  tables (backend (snd (NewDBStorage
    (mkWorld (mkConn false (mkTables None None) None
                [None; None; None; Some (PgError "08006")] []) []))))
  = mkTables None None.
Proof.
  apply (NewDBStorage_rolls_back
    (mkWorld (mkConn false (mkTables None None) None
                [None; None; None; Some (PgError "08006")] []) [])
    (Wrapped "create tables in database"
       (Wrapped "get counters table" (PgError "08006"))));
    reflexivity.
Defined.

(** ** Updates seen through a whole-relation read *)

(** X10: an update shows in the next whole-relation read, and only
    there.  After an update that succeeded, the map a successful
    [GetAllGauge] (for a Gauge) or [GetAllCounter] (for a Counter) returns
    holds the value the update returned under the metric's name and, under
    every other name, what was stored before the update. *)
Theorem GetAll_after_update (dbs dbs' : DBStorage) (name : string) (w : World Conn) :
  (forall (v : float) (all : gmap string float),
     let r := UpdateByMetrics dbs (gauge_update name v) w in
     succeeded (fst r) ->
     fst (GetAllGauge dbs' (snd r)) = Ok all ->
     all !! name = Some v /\
     forall k, k <> name -> all !! k = gauge_row k (tables (backend w))) /\
  (forall (d : Z) (all : gmap string Z),
     let r := UpdateByMetrics dbs (counter_update name d) w in
     succeeded (fst r) ->
     fst (GetAllCounter dbs' (snd r)) = Ok all ->
     all !! name = Some (counter_value name (tables (backend w)) + d) /\
     fst r = Ok (NewMetricsForCounter name
                   (counter_value name (tables (backend w)) + d)) /\
     forall k, k <> name -> all !! k = counter_row k (tables (backend w))).
Proof.
  split.
  - intros v all. cbn zeta. intros Hok Hall.
    pose proof (UpdateByMetrics_gauge dbs name v w Hok) as [_ Hrow].
    pose proof (getAll_reads gauges sql_all_gauges "gauges" dbs'
                  (snd (UpdateByMetrics dbs (gauge_update name v) w))
                  (fun t => eq_refl)) as (_ & _ & _ & Hrel).
    specialize (Hrel all Hall).
    split.
    + unfold gauge_row in Hrow. by rewrite Hrel in Hrow.
    + intros k Hk. revert Hok Hrel.
      unfold UpdateByMetrics, gauge_update. cbn [MType ID Value].
      rewrite decide_False by done. rewrite decide_True by done.
      unfold updateGaugeByMetrics.
      pose proof (errorHanlder_query dbs (UpsertGauge name v)
                    (sql_upsert_gauge name v) 0%float w) as [_ Hq].
      unfold query_upsert_gauge.
      destruct (errorHanlder _ _ _) as [[e|] w1]; cbn in *; [done|].
      intros _ Hrel.
      apply sql_upsert_gauge_frame in Hq as (_ & _ & _ & Hrows).
      rewrite <- (Hrows k Hk). unfold gauge_row. by rewrite Hrel.
  - intros d all. cbn zeta. intros Hok Hall.
    pose proof (UpdateByMetrics_counter dbs name d w Hok) as [Hret Hrow].
    pose proof (getAll_reads counters sql_all_counters "counters" dbs'
                  (snd (UpdateByMetrics dbs (counter_update name d) w))
                  (fun t => eq_refl)) as (_ & _ & _ & Hrel).
    specialize (Hrel all Hall).
    split; [|split; [done|]].
    + unfold counter_row in Hrow. by rewrite Hrel in Hrow.
    + intros k Hk. revert Hok Hrel.
      unfold UpdateByMetrics, counter_update. cbn [MType ID Delta].
      rewrite decide_True by done.
      unfold updateCounterByMetrics.
      pose proof (errorHanlder_query dbs (UpsertCounter name d)
                    (sql_upsert_counter name d) 0 w) as [_ Hq].
      unfold query_upsert_counter.
      destruct (errorHanlder _ _ _) as [[e|] w1]; cbn in *; [done|].
      intros _ Hrel.
      apply sql_upsert_counter_frame in Hq as (_ & _ & _ & Hrows).
      rewrite <- (Hrows k Hk). unfold counter_row. by rewrite Hrel.
Qed.

Lemma GetAll_after_update_witness :
  ({["temp" := 9.1%float]} : gmap string float) !! "temp" = Some 9.1%float.
Proof.
  refine (proj1 (proj1 (GetAll_after_update (mkDBStorage 0 0 0) (mkDBStorage 0 0 0)
                          "temp" ready_backend) 9.1%float {["temp" := 9.1%float]}
                   _ _)).
  - vm_compute. exact I.
  - vm_compute. reflexivity.
Defined.

(** * Further properties of the agent *)

Lemma wrap64_succ (n : nat) :
  wrap64 (wrap64 (Z.of_nat n) + 1) = wrap64 (Z.of_nat (S n)).
Proof.
  apply wrap64_congr.
  rewrite <- Zplus_mod_idemp_l, wrap64_mod, Zplus_mod_idemp_l.
  f_equal. lia.
Qed.

(** ** Runs, access by access *)

Lemma send_returns_call (p : Push) (t : Transport) :
  send_returns (send_call p t) = push p t.
Proof. reflexivity. Qed.

Lemma acts_app {MemStats} (G : MemStats -> gmap string float)
    (s1 s2 : list (Action MemStats)) :
  forall c : Conc MemStats,
  acts G (s1 ++ s2) c
  = match acts G s1 c with
    | Some c1 => acts G s2 c1
    | None => None
    end.
Proof.
  induction s1 as [|a s1 IH]; intros c; cbn; [done|].
  destruct (act G a c); [apply IH|done].
Qed.

(** An event of [step] is the run of its actions with nothing in
    between. *)
Lemma step_as_actions {MemStats} (G : MemStats -> gmap string float)
    (ev : Event MemStats) (st st' : RunState MemStats) :
  step G ev st = Some st' ->
  acts G (unfolded ev st) (mkConc st RSelect SSelect)
  = Some (mkConc st' RSelect SSelect).
Proof.
  destruct ev; cbn -[step]; unfold lift; cbn -[step].
  1,2,5,6,7: by intros ->.
  - destruct st as [a [ps fs] l d eg rep sam]. cbn.
    destruct rep; try done. intros [= <-].
    destruct fs as [|[e1|] [|[e2|] fs]]; reflexivity.
  - destruct st as [a t l d eg rep sam]. cbn.
    destruct rep, sam; try done; intros [= <-]; reflexivity.
Qed.

Lemma run_as_actions {MemStats} (G : MemStats -> gmap string float)
    (evs : list (Event MemStats)) :
  forall st st' : RunState MemStats,
  run G evs st = Some st' ->
  acts G (unfolded_run G evs st) (mkConc st RSelect SSelect)
  = Some (mkConc st' RSelect SSelect).
Proof.
  induction evs as [|ev evs IH]; intros st st'; cbn -[step unfolded].
  - by intros [= <-].
  - destruct (step G ev st) as [st1|] eqn:Hstep; [|done].
    intros Hrun. rewrite acts_app, (step_as_actions G ev st st1 Hstep).
    by apply IH.
Qed.

Lemma schedule_app {MemStats} (G : MemStats -> gmap string float)
    (s1 s2 : list (Action MemStats)) :
  forall (n : nat) (s : MemStats),
  additions (s1 ++ s2) = (additions s1 + additions s2)%nat /\
  written s (s1 ++ s2) = written (written s s1) s2 /\
  handed G n s (s1 ++ s2)
  = handed G n s s1 ++ handed G (additions s1 + n) (written s s1) s2.
Proof.
  induction s1 as [|a s1 IH]; intros n s; [done|].
  destruct a; cbn;
    try (destruct (IH n s) as (-> & -> & ->); done).
  - destruct (IH n sample) as (-> & -> & ->); done.
  - destruct (IH (S n) s) as (-> & -> & ->).
    by rewrite Nat.add_succ_r.
Qed.

Lemma act_follows_schedule {MemStats} (G : MemStats -> gmap string float)
    (a : Action MemStats) (c c' : Conc MemStats) (n : nat) :
  pollCount (agent (shared c)) = wrap64 (Z.of_nat n) ->
  act G a c = Some c' ->
  pollCount (agent (shared c')) = wrap64 (Z.of_nat (additions [a] + n)) /\
  ms (agent (shared c')) = written (ms (agent (shared c))) [a] /\
  pushes (net (shared c'))
  = pushes (net (shared c)) ++ handed G n (ms (agent (shared c))) [a].
Proof.
  destruct c as [[ag t l d eg rep sam] rat sat]. cbn. intros Hn.
  destruct a; cbn; unfold lift; cbn;
    intros Hact; repeat case_match; simplify_eq; cbn;
    rewrite ?app_nil_r, ?Hn, ?wrap64_succ; done.
Qed.

Lemma acts_follow_schedule {MemStats} (G : MemStats -> gmap string float)
    (sched : list (Action MemStats)) :
  forall (c c' : Conc MemStats) (n : nat),
  pollCount (agent (shared c)) = wrap64 (Z.of_nat n) ->
  acts G sched c = Some c' ->
  pollCount (agent (shared c')) = wrap64 (Z.of_nat (additions sched + n)) /\
  ms (agent (shared c')) = written (ms (agent (shared c))) sched /\
  pushes (net (shared c'))
  = pushes (net (shared c)) ++ handed G n (ms (agent (shared c))) sched.
Proof.
  induction sched as [|a sched IH]; intros c c' n Hn; cbn [acts].
  - intros [= <-]. cbn. by rewrite app_nil_r.
  - destruct (act G a c) as [c1|] eqn:Hact; [|done]. intros Hrun.
    destruct (act_follows_schedule G a c c1 n Hn Hact) as (Hn1 & Hms1 & Hp1).
    destruct (IH c1 c' _ Hn1 Hrun) as (Hn' & Hms' & Hp').
    destruct (schedule_app G [a] sched n (ms (agent (shared c))))
      as (Ha & Hw & Hh).
    cbn [app] in Ha, Hw, Hh.
    rewrite Ha, Hw, Hh, Hn', Hms', Hp', Hp1, Hms1, <- app_assoc.
    split; [f_equal; lia|done].
Qed.

(** The pushes of a run are whole reports, and the batch of the report
    under way. *)
Lemma act_keeps_reports {MemStats} (G : MemStats -> gmap string float)
    (a : Action MemStats) (c c' : Conc MemStats) (base : list Push) :
  (exists pairs last,
     pushes (net (shared c)) = base ++ flat_map report_pushes pairs ++ last /\
     if owed c then exists m, last = [PushBatch m] else last = []) ->
  act G a c = Some c' ->
  exists pairs last,
    pushes (net (shared c')) = base ++ flat_map report_pushes pairs ++ last /\
    if owed c' then exists m, last = [PushBatch m] else last = [].
Proof.
  destruct c as [[ag t l d eg rep sam] rat sat].
  intros (pairs & last & Hp & Hlast). unfold owed in *. cbn in Hp, Hlast.
  destruct a, rat; cbn; unfold lift; cbn;
    intros Hact; repeat case_match; simplify_eq; cbn in *;
    try first [ by exists pairs, last | by exists pairs, [] ].
  - (* the timer of the reporter *)
    exists pairs, [PushBatch (<["RandomValue" := r]> (G (ms ag)))].
    rewrite Hp, app_nil_r. split; [|by eexists].
    by rewrite <- app_assoc.
  - (* the counter is loaded *)
    destruct Hlast as [m ->].
    exists (pairs ++ [(m, pollCount ag)]), [].
    rewrite Hp, flat_map_app, app_nil_r. cbn.
    by rewrite <- !app_assoc.
Qed.

Lemma acts_keep_reports {MemStats} (G : MemStats -> gmap string float)
    (sched : list (Action MemStats)) (base : list Push) :
  forall c c' : Conc MemStats,
  (exists pairs last,
     pushes (net (shared c)) = base ++ flat_map report_pushes pairs ++ last /\
     if owed c then exists m, last = [PushBatch m] else last = []) ->
  acts G sched c = Some c' ->
  exists pairs last,
    pushes (net (shared c')) = base ++ flat_map report_pushes pairs ++ last /\
    if owed c' then exists m, last = [PushBatch m] else last = [].
Proof.
  induction sched as [|a sched IH]; intros c c' Hc; cbn -[act].
  - by intros [= <-].
  - destruct (act G a c) as [c1|] eqn:Hact; [|done].
    apply IH. by apply (act_keeps_reports G a c).
Qed.

Lemma handed_nothing {MemStats} (G : MemStats -> gmap string float)
    (sched : list (Action MemStats)) :
  forall (n : nat) (s : MemStats),
  (forall a, a ∈ sched -> a <> CountLoaded /\ forall r, a <> ReportTimer r) ->
  handed G n s sched = [].
Proof.
  induction sched as [|a sched IH]; intros n s Hno; [done|].
  pose proof (Hno a ltac:(left)) as [Hl Hr].
  assert (Hrest : forall a', a' ∈ sched ->
            a' <> CountLoaded /\ forall r, a' <> ReportTimer r)
    by (intros a' Ha'; apply Hno; by right).
  destruct a; cbn; try (by apply IH).
  - by destruct (Hr r).
  - done.
Qed.



Lemma act_in_step {MemStats} (G : MemStats -> gmap string float)
    (a : Action MemStats) (c c' : Conc MemStats) :
  in_step c -> act G a c = Some c' -> in_step c'.
Proof.
  destruct c as [[ag t l d eg rep sam] rat sat]. unfold in_step. cbn.
  intros [Hr Hs].
  destruct a, rat, sat; cbn; unfold lift; cbn;
    intros Hact; repeat case_match; simplify_eq; cbn;
    split; intros Hat; try done;
    first [ by apply Hr | by apply Hs | by discriminate (Hr ltac:(done))
          | by discriminate (Hs ltac:(done)) ].
Qed.

Lemma acts_in_step {MemStats} (G : MemStats -> gmap string float)
    (sched : list (Action MemStats)) :
  forall c c' : Conc MemStats,
  in_step c -> acts G sched c = Some c' -> in_step c'.
Proof.
  induction sched as [|a sched IH]; intros c c' Hc; cbn -[act].
  - by intros [= <-].
  - destruct (act G a c) as [c1|] eqn:Hact; [|done].
    apply IH. by apply (act_in_step G a c).
Qed.

Lemma act_no_task_failed {MemStats} (G : MemStats -> gmap string float)
    (a : Action MemStats) (c c' : Conc MemStats) :
  no_task_failed (shared c) -> act G a c = Some c' -> no_task_failed (shared c').
Proof.
  intros Hc.
  assert (Hlift : forall ev, lift G ev c = Some c' -> no_task_failed (shared c')).
  { intros ev. unfold lift.
    destruct (step G ev (shared c)) as [st|] eqn:Hstep; [|done].
    intros [= <-]. by apply (step_no_task_failed G ev (shared c)). }
  destruct a; cbn -[lift]; try (by apply Hlift);
    destruct c as [[ag t l d eg rep sam] rat sat]; cbn in *;
    intros Hact; repeat case_match; simplify_eq; try done;
    by eapply Hlift.
Qed.

Lemma acts_no_task_failed {MemStats} (G : MemStats -> gmap string float)
    (sched : list (Action MemStats)) :
  forall c c' : Conc MemStats,
  no_task_failed (shared c) -> acts G sched c = Some c' ->
  no_task_failed (shared c').
Proof.
  induction sched as [|a sched IH]; intros c c' Hc; cbn -[act].
  - by intros [= <-].
  - destruct (act G a c) as [c1|] eqn:Hact; [|done].
    apply IH. by apply (act_no_task_failed G a c).
Qed.

(** Pushes are only ever added, and a report whose batch has gone out
    stays owed its Counter until that is pushed. *)
Lemma act_owed {MemStats} (G : MemStats -> gmap string float)
    (a : Action MemStats) (c c' : Conc MemStats) :
  act G a c = Some c' ->
  (exists more, pushes (net (shared c')) = pushes (net (shared c)) ++ more) /\
  (owed c = true ->
   (owed c' = true /\ pushes (net (shared c')) = pushes (net (shared c))) \/
   pushes (net (shared c'))
   = pushes (net (shared c))
     ++ [PushCounter "PollCount" (pollCount (agent (shared c)))]).
Proof.
  destruct c as [[ag t l d eg rep sam] rat sat]. unfold owed. cbn.
  destruct a, rat; cbn; unfold lift; cbn;
    intros Hact; repeat case_match; simplify_eq; cbn;
    (split; [first [ by exists [] ; rewrite app_nil_r | by eexists ]|]);
    intros Howed; try done; first [ by left | by right ].
Qed.

Lemma acts_add_pushes {MemStats} (G : MemStats -> gmap string float)
    (sched : list (Action MemStats)) :
  forall c c' : Conc MemStats,
  acts G sched c = Some c' ->
  exists more, pushes (net (shared c')) = pushes (net (shared c)) ++ more.
Proof.
  induction sched as [|a sched IH]; intros c c'; cbn -[act].
  - intros [= <-]. exists []. by rewrite app_nil_r.
  - destruct (act G a c) as [c1|] eqn:Hact; [|done]. intros Hrun.
    destruct (act_owed G a c c1 Hact) as [[m1 H1] _].
    destruct (IH c1 c' Hrun) as [m2 H2].
    exists (m1 ++ m2). by rewrite H2, H1, app_assoc.
Qed.

Lemma acts_owed {MemStats} (G : MemStats -> gmap string float)
    (sched : list (Action MemStats)) :
  forall c c' : Conc MemStats,
  owed c = true ->
  acts G sched c = Some c' ->
  (owed c' = true /\ pushes (net (shared c')) = pushes (net (shared c))) \/
  exists v rest,
    pushes (net (shared c'))
    = pushes (net (shared c)) ++ PushCounter "PollCount" v :: rest.
Proof.
  induction sched as [|a sched IH]; intros c c' Howed; cbn -[act].
  - intros [= <-]. by left.
  - destruct (act G a c) as [c1|] eqn:Hact; [|done]. intros Hrun.
    destruct (act_owed G a c c1 Hact) as [_ [[Ho1 Hp1]|Hp1]]; [done| |].
    + destruct (IH c1 c' Ho1 Hrun) as [[Ho' Hp']|(v & rest & Hp')].
      * left. by rewrite Hp', Hp1.
      * right. exists v, rest. by rewrite Hp', Hp1.
    + right. destruct (acts_add_pushes G sched c1 c' Hrun) as [more Hm].
      exists (pollCount (agent (shared c))), more.
      by rewrite Hm, Hp1, <- app_assoc.
Qed.

(** The shutdown schedule runs from every state of a run. *)
Lemma shutdown_runs {MemStats} (G : MemStats -> gmap string float)
    (c : Conc MemStats) :
  in_step c -> no_task_failed (shared c) ->
  exists c',
    acts G (shutdown c) c = Some c' /\
    (exists l, Run_returns (shared c') = Some (None, l)) /\
    pushes (net (shared c'))
    = pushes (net (shared c))
      ++ (if owed c
          then [PushCounter "PollCount" (pollCount (agent (shared c)))]
          else []) /\
    ms (agent (shared c')) = ms (agent (shared c)).
Proof.
  destruct c as [[ag [ps fs] l d eg rep sam] rat sat].
  intros [Hr Hs] (Heg & Hrep & Hsam). cbn in Hr, Hs, Heg, Hrep, Hsam.
  destruct rep as [| |rerr], sam as [| |serr];
    try (destruct (Hrep _ eq_refl) as [? ?]);
    try (destruct (Hsam _ eq_refl) as [? ?]);
    simplify_eq;
    destruct rat; try (by discriminate (Hr ltac:(done)));
    destruct sat; try (by discriminate (Hs ltac:(done)));
    clear Hr Hs Hrep Hsam;
    destruct fs as [|[e1|] [|[e2|] fs]];
    eexists;
    (split; [cbn; reflexivity|]);
    (split; [eexists; reflexivity|]);
    (split; [|reflexivity]);
    cbn; by rewrite ?app_nil_r.
Qed.

(** X12: the agent can always be shut down, and a report under way is
    brought to its end first.  From every state of a run, also from
    inside [sendReport] or between the two accesses of a sample, the
    signal followed by each goroutine going to its [select] and out of
    it is a schedule that can happen; [Run] then returns nil, no new
    report and no new sample having been started.  It is not silent: the
    reporter does not look at the context inside [sendReport], so when
    the batch of a report has gone out, the Counter "PollCount" of that
    report is pushed after the signal, on this and on every other run in
    which the reporter returns.  Once the reporter has returned nothing
    is pushed.  [Run] returns only after the signal, with both
    goroutines out of their loops, and returns nil. *)
Theorem agent_shutdown_ends_report {MemStats} (G : MemStats -> gmap string float)
    (a : Agent MemStats) (t : Transport) (sched : list (Action MemStats))
    (c : Conc MemStats) :
  acts G sched (go a t) = Some c ->
  (exists c',
     acts G (shutdown c) c = Some c' /\
     (exists l, Run_returns (shared c') = Some (None, l)) /\
     pushes (net (shared c'))
     = pushes (net (shared c))
       ++ (if owed c
           then [PushCounter "PollCount" (pollCount (agent (shared c)))]
           else []) /\
     ms (agent (shared c')) = ms (agent (shared c))) /\
  (reporter_at c <> RSelect ->
   act G ReporterReturns c = None /\ forall r, act G (ReportTimer r) c = None) /\
  (owed c = true ->
   forall sched' c' err,
     acts G sched' c = Some c' ->
     reporter (shared c') = Returned err ->
     exists v rest,
       pushes (net (shared c'))
       = pushes (net (shared c)) ++ PushCounter "PollCount" v :: rest) /\
  (forall err a' c',
     reporter (shared c) = Returned err -> act G a' c = Some c' ->
     net (shared c') = net (shared c) /\ reporter (shared c') = Returned err) /\
  (forall res,
     Run_returns (shared c) = Some res ->
     fst res = None /\ ctxDone (shared c) = true /\
     reporter_at c = RSelect /\ sampler_at c = SSelect).
Proof.
  intros Hrun.
  assert (Hin : in_step c).
  { apply (acts_in_step G sched (go a t) c); [|done]. by split. }
  assert (Hok : no_task_failed (shared c)).
  { apply (acts_no_task_failed G sched (go a t) c); [|done].
    split; [done|]. by split. }
  split; [by apply shutdown_runs|]. split; [|split; [|split]].
  - intros Hat. unfold act. destruct (reporter_at c); [done|..];
      (split; [done|]); intros r; by destruct (reporter (shared c)).
  - intros Howed sched' c' err Hrun' Hret.
    destruct (acts_owed G sched' c c' Howed Hrun') as [[Ho' _]|Hp]; [|done].
    assert (Hin' : in_step c') by (by apply (acts_in_step G sched' c c')).
    destruct Hin' as [Hr' _]. unfold owed in Ho'.
    rewrite Hr' in Hret; [done|]. by destruct (reporter_at c').
  - intros err a' c' Hret. destruct Hin as [Hr _].
    assert (Hat : reporter_at c = RSelect).
    { destruct (reporter_at c); [done|..]; rewrite Hr in Hret; done. }
    destruct c as [[ag tr l d eg rep sam] rat sat]. cbn in *. subst.
    destruct a'; cbn; unfold lift; cbn;
      intros Hact; repeat case_match; simplify_eq; done.
  - intros res. destruct Hin as [Hr Hs], Hok as (Heg & Hrep & Hsam).
    unfold Run_returns. rewrite Heg.
    destruct (reporter (shared c)) as [| |rerr] eqn:Er; [done|done|].
    destruct (sampler (shared c)) as [| |serr] eqn:Es; [done|done|].
    intros [= <-]. split; [done|].
    split; [by destruct (Hrep _ eq_refl)|].
    split.
    + destruct (reporter_at c); [done|..]; by discriminate Hr.
    + destruct (sampler_at c); [done|]; by discriminate Hs.
Qed.

Lemma agent_shutdown_ends_report_witness :
  match acts (fun stats : gmap string float => stats)
          [StartReporter; StartSampler; PollTimer reading1; CountAdded;
           ReportTimer 0.25%float; Interrupt]
          (go (NewAgent 10 2 reading0) (mkTransport [] []))
  with
  | Some c =>
      exists c',
        acts (fun stats : gmap string float => stats) (shutdown c) c = Some c' /\
        (exists l, Run_returns (shared c') = Some (None, l)) /\
        pushes (net (shared c'))
        = pushes (net (shared c))
          ++ (if owed c
              then [PushCounter "PollCount" (pollCount (agent (shared c)))]
              else []) /\
        ms (agent (shared c')) = ms (agent (shared c))
  | None => False
  end.
Proof.
  destruct (acts _ _ _) as [c|] eqn:Hrun.
  - exact (proj1 (agent_shutdown_ends_report
                    (fun stats : gmap string float => stats)
                    (NewAgent 10 2 reading0) (mkTransport [] []) _ c Hrun)).
  - vm_compute in Hrun. discriminate Hrun.
Defined.

(** X16: the events of [step] are the accesses of the goroutines with
    nothing in between.  Every run of events is a run of the goroutines
    access by access, each reporter tick unfolded into the reading of
    the snapshot, the two calls of the client with the load of the
    counter between them and the log entry of a failed Counter push, each
    sampler tick into the writing of the snapshot and the addition; it
    ends in the same state, with both goroutines in their [select]. *)
Theorem events_are_uninterrupted_accesses {MemStats}
    (G : MemStats -> gmap string float) (a : Agent MemStats) (t : Transport)
    (evs : list (Event MemStats)) (st : RunState MemStats) :
  run G evs (start a t) = Some st ->
  acts G (unfolded_run G evs (start a t)) (go a t)
  = Some (mkConc st RSelect SSelect).
Proof.
  apply run_as_actions.
Qed.

Lemma events_are_uninterrupted_accesses_witness :
  match run (fun stats : gmap string float => stats)
          [ReporterStarts; SamplerStarts; PollTick reading1;
           ReportTick 0.25%float; Signal; ReporterSeesDone; SamplerSeesDone]
          (start (NewAgent 10 2 reading0)
             (mkTransport [] [None; Some (ErrText "connection refused")]))
  with
  | Some st =>
      acts (fun stats : gmap string float => stats)
        (unfolded_run (fun stats : gmap string float => stats)
           [ReporterStarts; SamplerStarts; PollTick reading1;
            ReportTick 0.25%float; Signal; ReporterSeesDone; SamplerSeesDone]
           (start (NewAgent 10 2 reading0)
              (mkTransport [] [None; Some (ErrText "connection refused")])))
        (go (NewAgent 10 2 reading0)
           (mkTransport [] [None; Some (ErrText "connection refused")]))
      = Some (mkConc st RSelect SSelect)
  | None => False
  end.
Proof.
  destruct (run _ _ _) as [st|] eqn:Hrun.
  - exact (events_are_uninterrupted_accesses
             (fun stats : gmap string float => stats) (NewAgent 10 2 reading0)
             (mkTransport [] [None; Some (ErrText "connection refused")])
             _ st Hrun).
  - vm_compute in Hrun. discriminate Hrun.
Defined.

(** * Properties of the agent's earlier main loop *)

Lemma main_loop_app {MemStats} (G : MemStats -> gmap string float) (R p : Z)
    (inputs rest : list (MemStats * float)) :
  forall l : Loop MemStats,
  main_loop G R p (inputs ++ rest) l
  = match main_loop G R p inputs l with
    | (Returns _, l1) => main_loop G R p rest l1
    | (Panics, l1) => (Panics, l1)
    end.
Proof.
  induction inputs as [|y inputs IH]; intros l; cbn.
  - done.
  - destruct (iteration G R p y l) as [[[]|] l1]; [apply IH|done].
Qed.

Lemma main_loop_snoc {MemStats} (G : MemStats -> gmap string float) (R p : Z)
    (inputs : list (MemStats * float)) (x : MemStats * float) :
  forall l : Loop MemStats,
  main_loop G R p (inputs ++ [x]) l
  = match main_loop G R p inputs l with
    | (Returns _, l1) => iteration G R p x l1
    | (Panics, l1) => (Panics, l1)
    end.
Proof.
  intros l. rewrite main_loop_app.
  destruct (main_loop G R p inputs l) as [[[]|] l1]; [|done].
  cbn. by destruct (iteration G R p x l1) as [[[]|] l2].
Qed.

(** Turns before the first report only sample and sleep. *)
Lemma old_loop_quiet {MemStats}
    (G : MemStats -> gmap string float) (R p : Z) (s0 : MemStats)
    (faults : list (option error)) (inputs : list (MemStats * float)) :
  0 < p ->
  (forall i : nat, (i < length inputs)%nat -> Z.of_nat i * p <> R) ->
  Z.of_nat (length inputs) * p < 2 ^ 64 ->
  main_loop G R p inputs (main_start s0 faults)
  = (Returns tt,
     mkLoop (Z.of_nat (length inputs) * p) (wrap64 (Z.of_nat (length inputs)))
       (default s0 (fst <$> last inputs)) [] faults
       (replicate (length inputs) (seconds p))).
Proof.
  intros Hp.
  induction inputs as [|[sample r] inputs IH] using rev_ind; intros Hne Hsmall.
  - reflexivity.
  - rewrite length_app in *. cbn [length] in *.
    rewrite main_loop_snoc, IH; [|intros i Hi; apply Hne; lia|lia].
    unfold iteration. cbn [timeToPush].
    destruct (Z.of_nat (length inputs) * p =? R) eqn:E.
    { apply Z.eqb_eq in E. destruct (Hne (length inputs)); [lia|done]. }
    cbn. f_equal. rewrite last_snoc. cbn.
    rewrite Nat.add_1_r, wrap64_succ.
    f_equal.
    + unfold wrapU64. rewrite Z.mod_small; lia.
    + rewrite <- replicate_cons_app. done.
Qed.

Lemma counts_of_reports_S (q k : nat) :
  counts_of_reports q (S k)
  = counts_of_reports q k ++ [wrap64 (Z.of_nat (S k * q))].
Proof.
  unfold counts_of_reports. by rewrite seq_S, fmap_app.
Qed.

Lemma old_loop_invariant {MemStats} (G : MemStats -> gmap string float)
    (p : Z) (q : nat) (s0 : MemStats) (inputs : list (MemStats * float)) :
  0 < p -> (0 < q)%nat -> Z.of_nat q * p < 2 ^ 64 ->
  exists l : Loop MemStats,
    main_loop G (Z.of_nat q * p) p inputs (main_start s0 []) = (Returns tt, l) /\
    push_faults l = [] /\
    count l = wrap64 (Z.of_nat (length inputs)) /\
    ((length inputs = O /\ timeToPush l = 0 /\ sent l = []) \/
     exists k j : nat,
       length inputs = (k * q + j + 1)%nat /\ (j < q)%nat /\
       timeToPush l = Z.of_nat (j + 1) * p /\
       sent_counts (sent l) = counts_of_reports q k /\
       length (sent l) = (3 * k)%nat).
Proof.
  intros Hp Hq Hsmall.
  assert (Hle : forall a : nat, (a <= q)%nat -> Z.of_nat a * p <= Z.of_nat q * p).
  { intros a Ha. apply Z.mul_le_mono_nonneg_r; lia. }
  assert (Hone : wrapU64 (0 + p) = Z.of_nat (0 + 1) * p).
  { pose proof (Hle 1%nat ltac:(lia)) as H1.
    unfold wrapU64. rewrite Z.mod_small; cbn [Nat.add] in *; lia. }
  induction inputs as [|[sample r] inputs IH] using rev_ind.
  - exists (main_start s0 []). split; [reflexivity|].
    split; [reflexivity|]. split; [reflexivity|]. left. done.
  - destruct IH as (l & Hrun & Hf & Hc & Hstate).
    rewrite main_loop_snoc, Hrun. rewrite length_app. cbn [length].
    assert (Hcount : wrap64 (count l + 1)
                     = wrap64 (Z.of_nat (length inputs + 1))).
    { rewrite Hc, Nat.add_1_r. apply wrap64_succ. }
    unfold iteration.
    destruct Hstate as [(Hn & Ht & Hs) | (k & j & Hn & Hj & Ht & Hs & Hlen)].
    + rewrite Ht.
      destruct (0 =? Z.of_nat q * p) eqn:E.
      { apply Z.eqb_eq in E. pose proof (Hle 1%nat ltac:(lia)). lia. }
      eexists. split; [reflexivity|]. cbn [push_faults count timeToPush sent].
      split; [done|]. split; [done|].
      right. exists O, O. rewrite Hn, Hs.
      split; [lia|]. split; [lia|]. split; [rewrite Ht; exact Hone|]. done.
    + rewrite Ht.
      destruct (Z.of_nat (j + 1) * p =? Z.of_nat q * p) eqn:E.
      * apply Z.eqb_eq in E. apply Z.mul_reg_r in E; [|lia].
        assert (Hjq : (j + 1 = q)%nat) by lia.
        unfold old_report, old_push. rewrite Hf.
        cbn [head tail mjoin option_join option_bind mbind timeToPush count
               snapshot sent push_faults naps].
        eexists. split; [reflexivity|].
        cbn [push_faults count timeToPush sent].
        split; [done|]. split; [done|].
        right. exists (S k), O.
        split; [lia|]. split; [lia|]. split; [exact Hone|].
        split.
        -- rewrite counts_of_reports_S, <- Hs, Hc.
           unfold sent_counts. rewrite <- !app_assoc, omap_app.
           f_equal. cbn [omap list_omap app].
           do 3 f_equal. lia.
        -- rewrite !length_app. cbn [length]. lia.
      * apply Z.eqb_neq in E.
        eexists. split; [reflexivity|].
        cbn [push_faults count timeToPush sent].
        split; [done|]. split; [done|].
        right. exists k, (S j).
        assert (Hlt : (S j < q)%nat).
        { destruct (decide (S j = q)) as [Heq|]; [|lia].
          destruct E. f_equal. lia. }
        split; [lia|]. split; [done|].
        split; [|done].
        pose proof (Hle (S j + 1)%nat ltac:(lia)) as Hb.
        replace (Z.of_nat (S j + 1)) with (Z.of_nat (j + 1) + 1) in * by lia.
        rewrite Z.mul_add_distr_r, Z.mul_1_l in *.
        rewrite Ht. unfold wrapU64. rewrite Z.mod_small; lia.
Qed.

(** X13: the earlier loop reports on multiples only.  With a poll
    interval [p > 0], a report interval of [q] poll intervals and no push
    failing, the loop reports once every [q] turns, at the head of turns
    [q + 1], [2 * q + 1] and so on: after [n] turns there have been
    [(n - 1) / q] reports of three pushes each, the Counter "PollCount" of
    the [i]-th being [i * q], the count of all turns before it, and no
    turn panics. *)
Theorem old_loop_reports_every_q_turns {MemStats}
    (G : MemStats -> gmap string float) (p : Z) (q : nat) (s0 : MemStats)
    (inputs : list (MemStats * float)) :
  0 < p -> (0 < q)%nat -> Z.of_nat q * p < 2 ^ 64 ->
  let r := main_loop G (Z.of_nat q * p) p inputs (main_start s0 []) in
  let n := length inputs in
  fst r = Returns tt /\
  count (snd r) = wrap64 (Z.of_nat n) /\
  sent_counts (sent (snd r)) = counts_of_reports q ((n - 1) / q) /\
  length (sent (snd r)) = (3 * ((n - 1) / q))%nat /\
  timeToPush (snd r)
  = if decide (n = O) then 0 else Z.of_nat ((n - 1) mod q + 1) * p.
Proof.
  intros Hp Hq Hsmall. cbn zeta.
  destruct (old_loop_invariant G p q s0 inputs Hp Hq Hsmall)
    as (l & -> & _ & Hc & Hstate). cbn [fst snd].
  split; [done|]. split; [done|].
  destruct Hstate as [(Hn & Ht & Hs) | (k & j & Hn & Hj & Ht & Hs & Hlen)].
  - rewrite Hn, Hs, Ht. cbn. rewrite Nat.Div0.div_0_l. done.
  - rewrite Hn. replace (k * q + j + 1 - 1)%nat with (j + k * q)%nat by lia.
    rewrite Nat.div_add by lia. rewrite Nat.Div0.mod_add.
    rewrite Nat.div_small, Nat.mod_small by done. cbn [Nat.add].
    rewrite decide_False by lia. done.
Qed.

Lemma old_loop_reports_every_q_turns_witness :
  sent_counts (sent (snd (main_loop (fun stats : gmap string float => stats)
     (Z.of_nat 5 * 2) 2
     (replicate 12 (reading1, 0.25%float)) (main_start reading0 []))))
  = counts_of_reports 5 ((length (replicate 12 (reading1, 0.25%float)) - 1) / 5).
Proof.
  apply (old_loop_reports_every_q_turns (fun stats : gmap string float => stats)
           2 5 reading0 (replicate 12 (reading1, 0.25%float))); cbn; lia.
Defined.

(** X14: where the report interval is no multiple of the poll interval,
    the earlier loop never reports.  As long as [timeToPush] has not
    wrapped around, that is for [n] turns with [n * p < 2^64], nothing is
    pushed and no turn panics, whatever the transport would answer: the
    loop only samples and sleeps. *)
Theorem old_loop_never_reports {MemStats}
    (G : MemStats -> gmap string float) (R p : Z) (s0 : MemStats)
    (faults : list (option error)) (inputs : list (MemStats * float)) :
  0 < p -> ~ (p | R) ->
  Z.of_nat (length inputs) * p < 2 ^ 64 ->
  main_loop G R p inputs (main_start s0 faults)
  = (Returns tt,
     mkLoop (Z.of_nat (length inputs) * p) (wrap64 (Z.of_nat (length inputs)))
       (default s0 (fst <$> last inputs)) [] faults
       (replicate (length inputs) (seconds p))).
Proof.
  intros Hp Hdiv Hsmall. apply old_loop_quiet; [done| |done].
  intros i _ Hi. destruct Hdiv. by exists (Z.of_nat i).
Qed.

Lemma old_loop_never_reports_witness :
  sent (snd (main_loop (fun stats : gmap string float => stats) 10 3
               (replicate 20 (reading1, 0.25%float))
               (main_start reading0 [Some (ErrText "connection refused")])))
  = [].
Proof.
  rewrite (old_loop_never_reports (fun stats : gmap string float => stats) 10 3
             reading0 [Some (ErrText "connection refused")]
             (replicate 20 (reading1, 0.25%float))).
  - reflexivity.
  - lia.
  - intros [k Hk]. lia.
  - cbn. lia.
Defined.

(** X15: a push that fails stops the earlier agent.  With a report
    interval of [q] poll intervals the first report is made at the head of
    turn [q + 1]; if one of its three pushes fails, the loop panics there:
    the pushes up to the failed one have been attempted and no later one,
    and the agent has slept [q] times and never again. *)
Theorem old_loop_panics_on_failed_push {MemStats}
    (G : MemStats -> gmap string float) (p : Z) (q i : nat) (s0 : MemStats)
    (e : error) (rest : list (option error))
    (inputs : list (MemStats * float)) :
  0 < p -> (0 < q)%nat -> Z.of_nat q * p < 2 ^ 64 ->
  (i < 3)%nat -> (q < length inputs)%nat ->
  let r := main_loop G (Z.of_nat q * p) p inputs
             (main_start s0 (replicate i None ++ Some e :: rest)) in
  fst r = Panics /\
  length (sent (snd r)) = S i /\
  push_faults (snd r) = rest /\
  naps (snd r) = replicate q (seconds p).
Proof.
  intros Hp Hq Hsmall Hi Hlen. cbn zeta.
  rewrite <- (take_drop q inputs).
  assert (Htake : length (take q inputs) = q) by (rewrite length_take; lia).
  destruct (drop q inputs) as [|[sample r] later] eqn:Hdrop.
  { apply (f_equal length) in Hdrop. rewrite length_drop in Hdrop.
    cbn in Hdrop. lia. }
  rewrite main_loop_app, old_loop_quiet; rewrite ?Htake; [|done| |done].
  - cbn [main_loop]. unfold iteration. cbn [timeToPush].
    rewrite Z.eqb_refl.
    destruct i as [|[|[|i]]]; [| | |lia]; cbn; done.
  - intros k Hk Heq. apply Z.mul_reg_r in Heq; lia.
Qed.

Lemma old_loop_panics_on_failed_push_witness :
  fst (main_loop (fun stats : gmap string float => stats) (Z.of_nat 2 * 5) 5
         (replicate 4 (reading1, 0.25%float))
         (main_start reading0
            (replicate 1 None ++ Some (ErrText "connection refused") :: [])))
  = Panics.
Proof.
  apply (old_loop_panics_on_failed_push
           (fun stats : gmap string float => stats) 5 2 1 reading0
           (ErrText "connection refused") []
           (replicate 4 (reading1, 0.25%float))); cbn; lia.
Defined.
